(** * udp-procfs-exporter: process lookup, socket-table parsing and
    dropped-counter reconciliation

  A shallow embedding of [main.go]: [findPIDByName] / [walkProcFSStatus]
  (the one-shot scan of [/proc]), [parseProcfsNetFile] (one snapshot of
  [/proc/<pid>/net/udp] or [udp6]) and [watchUDPBuffers] (the sampling
  loop that feeds the two Prometheus vectors).

  Conventions.
  - Go's [int] is the 64-bit signed integer of the linux/amd64 build; it
    is a [Z] and every addition and subtraction is wrapped explicitly.
  - Go strings are byte strings: [string] over 8-bit [ascii].
  - A run-time panic (index or slice bound out of range) is the [Panic]
    constructor of [result]; [log.Fatal] is a constructor of its own.
  - The parts of the Go standard library the program calls ([strconv],
    [strings]) are written out from their Go 1.13 sources. *)

From Stdlib Require Import ZArith String Ascii List Lia DecimalString DecimalPos Sorted.
From stdpp Require Import base option list strings gmap.

Local Open Scope string_scope.
Local Open Scope Z_scope.

(* ===================================================================== *)
(** ** Go's [int] *)
(* ===================================================================== *)

Module GoInt.

Definition bits : Z := 64.
Definition min_int : Z := - 2 ^ (bits - 1).
Definition max_int : Z := 2 ^ (bits - 1) - 1.

(** Two's-complement wrap-around of a mathematical integer. *)
Definition wrap (z : Z) : Z := (z - min_int) mod 2 ^ bits + min_int.

Definition add (a b : Z) : Z := wrap (a + b).
Definition sub (a b : Z) : Z := wrap (a - b).

Definition in_range (z : Z) : Prop := min_int <= z <= max_int.

End GoInt.

(* ===================================================================== *)
(** ** Results of code that can panic *)
(* ===================================================================== *)

Inductive result (A : Type) : Type :=
| Ret (a : A)
| Panic.
Arguments Ret {A} a.
Arguments Panic {A}.

(* ===================================================================== *)
(** ** [strconv] *)
(* ===================================================================== *)

Module Strconv.

(** The two [*NumError] causes the program can meet. *)
Inductive NumError : Type := ErrSyntax | ErrRange.

Definition byte_val (c : ascii) : Z := Z.of_N (N_of_ascii c).

(** [lower(c) = c | ('x' - 'X')]. *)
Definition lower (c : Z) : Z := Z.lor c 32.

(** The digit switch of [ParseUint] for an explicit base (no [_]). *)
Definition digit_of (c : ascii) : option Z :=
  let b := byte_val c in
  if (48 <=? b) && (b <=? 57) then Some (b - 48)
  else if (97 <=? lower b) && (lower b <=? 122) then Some (lower b - 97 + 10)
  else None.

Definition maxUint64 : Z := 2 ^ 64 - 1.

(** The loop of [ParseUint] over the bytes of [s], [n] being the value
    read so far. *)
Fixpoint ParseUint_loop (s : string) (base maxVal n : Z) : Z * option NumError :=
  match s with
  | EmptyString => (n, None)
  | String c s' =>
      match digit_of c with
      | None => (0, Some ErrSyntax)
      | Some d =>
          if base <=? d then (0, Some ErrSyntax)
          else if maxUint64 / base + 1 <=? n then (maxVal, Some ErrRange)
          else
            let n1 := n * base + d in
            if (maxUint64 <? n1) || (maxVal <? n1) then (maxVal, Some ErrRange)
            else ParseUint_loop s' base maxVal n1
      end
  end.

(** [strconv.ParseUint(s, base, bitSize)] for [2 <= base <= 36] and
    [1 <= bitSize <= 64]. *)
Definition ParseUint (s : string) (base bitSize : Z) : Z * option NumError :=
  match s with
  | EmptyString => (0, Some ErrSyntax)
  | _ => ParseUint_loop s base (2 ^ bitSize - 1) 0
  end.

(** [strconv.ParseInt(s, base, bitSize)]. *)
Definition ParseInt (s : string) (base bitSize : Z) : Z * option NumError :=
  match s with
  | EmptyString => (0, Some ErrSyntax)
  | String c0 rest =>
      let neg := Ascii.eqb c0 "-" in
      let s1 := if Ascii.eqb c0 "+" || neg then rest else s in
      match ParseUint s1 base bitSize with
      | (_, Some ErrSyntax) => (0, Some ErrSyntax)
      | (un, _) =>
          let cutoff := 2 ^ (bitSize - 1) in
          if negb neg && (cutoff <=? un) then (cutoff - 1, Some ErrRange)
          else if neg && (cutoff <? un) then (- cutoff, Some ErrRange)
          else (if neg then - un else un, None)
      end
  end.

(** [strconv.Atoi(s)]: its fast path for short strings agrees with
    [ParseInt(s, 10, 0)], which is its slow path. *)
Definition Atoi (s : string) : Z * option NumError := ParseInt s 10 GoInt.bits.

(** [strconv.Itoa(i)]. *)
Definition Itoa (i : Z) : string := NilZero.string_of_int (Z.to_int i).

End Strconv.

(* ===================================================================== *)
(** ** [strings] and [bytes] *)
(* ===================================================================== *)

Module Strings.

Import Strconv.

Definition len (s : string) : Z := Z.of_nat (String.length s).

(** Width in bytes of the white-space rune that starts [s], [0%nat] when
    [s] does not start with one. White space is [unicode.IsSpace]: the
    six ASCII characters of the fast path of [strings.Fields]
    (tab, newline, vertical tab, form feed, carriage return, space) and,
    in UTF-8, U+0085, U+00A0, U+1680, U+2000..U+200A, U+2028, U+2029,
    U+202F, U+205F and U+3000. The lead bytes of these encodings are
    never continuation bytes, so matching them at each byte offset agrees
    with decoding [s] rune by rune. *)
Definition space_width (s : string) : nat :=
  match s with
  | EmptyString => 0%nat
  | String c1 r1 =>
      let b1 := byte_val c1 in
      if ((9 <=? b1) && (b1 <=? 13)) || (b1 =? 32) then 1%nat
      else
        match r1 with
        | EmptyString => 0%nat
        | String c2 r2 =>
            let b2 := byte_val c2 in
            if (b1 =? 194) && ((b2 =? 133) || (b2 =? 160)) then 2%nat
            else
              match r2 with
              | EmptyString => 0%nat
              | String c3 _ =>
                  let b3 := byte_val c3 in
                  if (b1 =? 225) && (b2 =? 154) && (b3 =? 128) then 3%nat
                  else if (b1 =? 226) && (b2 =? 128)
                          && (((128 <=? b3) && (b3 <=? 138))
                              || (b3 =? 168) || (b3 =? 169) || (b3 =? 175))
                       then 3%nat
                  else if (b1 =? 226) && (b2 =? 129) && (b3 =? 159) then 3%nat
                  else if (b1 =? 227) && (b2 =? 128) && (b3 =? 128) then 3%nat
                  else 0%nat
              end
        end
  end.

(** The field in progress, closed when a space or the end is met. *)
Definition close_field (wasField : bool) (cur : string) : list string :=
  if wasField then [String.rev cur] else [].

(** The loop of [strings.FieldsFunc(s, unicode.IsSpace)]: [skip] counts
    the remaining bytes of the white-space rune being crossed, [cur] is
    the field in progress, last byte first. *)
Fixpoint Fields_loop (s : string) (skip : nat) (wasField : bool) (cur : string)
  : list string :=
  match s with
  | EmptyString => close_field wasField cur
  | String c s' =>
      match skip with
      | S k => Fields_loop s' k wasField cur
      | O =>
          match space_width s with
          | O => Fields_loop s' 0 true (String c cur)
          | S k => (close_field wasField cur ++ Fields_loop s' k false EmptyString)%list
          end
      end
  end.

(** [strings.Fields(s)]. *)
Definition Fields (s : string) : list string := Fields_loop s 0 false EmptyString.

(** [strings.Split(s, sep)] for a separator of one byte: the substrings
    between the separators, always at least one. *)
Fixpoint Split (s : string) (sep : ascii) : list string :=
  match s with
  | EmptyString => [EmptyString]
  | String c s' =>
      if Ascii.eqb c sep then EmptyString :: Split s' sep
      else
        match Split s' sep with
        | f :: fs => String c f :: fs
        | [] => [String c EmptyString]
        end
  end.

(** [strings.Contains(s, substr)]. *)
Fixpoint Contains (s substr : string) : bool :=
  String.prefix substr s
  || match s with
     | EmptyString => false
     | String _ s' => Contains s' substr
     end.

(** [strings.Count(s, sep)] for a separator of one byte. *)
Fixpoint Count (s : string) (sep : ascii) : Z :=
  match s with
  | EmptyString => 0
  | String c s' => (if Ascii.eqb c sep then 1 else 0) + Count s' sep
  end.

(** [bytes.IndexByte(b, c)]: the first index of [c], or [-1]. *)
Fixpoint IndexByte (s : string) (c : ascii) : Z :=
  match s with
  | EmptyString => -1
  | String c' s' =>
      if Ascii.eqb c' c then 0
      else let i := IndexByte s' c in if i <? 0 then -1 else i + 1
  end.

(** [strings.LastIndex(s, sep)] for a separator of one byte: the last
    index of [sep], or [-1]. *)
Fixpoint LastIndex (s : string) (sep : ascii) : Z :=
  match s with
  | EmptyString => -1
  | String c s' =>
      let i := LastIndex s' sep in
      if 0 <=? i then i + 1
      else if Ascii.eqb c sep then 0 else -1
  end.

(** The slice expression [s[lo:hi]], which panics unless
    [0 <= lo <= hi <= len(s)]. *)
Definition slice (s : string) (lo hi : Z) : result string :=
  if (0 <=? lo) && (lo <=? hi) && (hi <=? len s)
  then Ret (String.substring (Z.to_nat lo) (Z.to_nat (hi - lo)) s)
  else Panic.

End Strings.

(** The index expression [xs[i]] on a slice, which panics out of range. *)
Definition index {A : Type} (xs : list A) (i : nat) : result A :=
  match xs !! i with
  | Some x => Ret x
  | None => Panic
  end.

(* ===================================================================== *)
(** ** What the program prints *)
(* ===================================================================== *)

(** The lines written with [fmt.Println]. *)
Inductive diag : Type :=
| UnableQueued (err : Strconv.NumError)
    (** ["Unable to parse queued UDP buffers:", err] *)
| UnableDropped (err : Strconv.NumError)
    (** ["Unable to parse dropped UDP buffers:", err] *)
| WentNegative.
    (** ["Dropped count went negative! Abandoning UDP buffer parsing"] *)

(* ===================================================================== *)
(** ** [parseProcfsNetFile] *)
(* ===================================================================== *)

(** What [os.Open(filename)] and the [bufio.Scanner] give: [None] when the
    file cannot be opened, otherwise the lines [s.Text()] takes in turn
    while [s.Scan()] holds. *)
Definition file : Type := option (list string).

(** The body of the scanning loop, from line number [n] on, with the sums
    so far. Returns what was printed and what the function returns. *)
Fixpoint scan_lines (lines : list string) (n queued dropped : Z)
  : list diag * result (Z * Z) :=
  match lines with
  | [] => ([], Ret (queued, dropped))
  | text :: rest =>
      if n <? 1 then scan_lines rest (GoInt.add n 1) queued dropped
      else
        let fields := Strings.Fields text in
        match index fields 4 with
        | Panic => ([], Panic)
        | Ret field4 =>
            match index (Strings.Split field4 ":") 1 with
            | Panic => ([], Panic)
            | Ret part =>
                let '(queuedLine, err) := Strconv.ParseInt part 16 32 in
                let queued := GoInt.add queued queuedLine in
                match err with
                | Some e => ([UnableQueued e], Ret (0, 0))
                | None =>
                    match index fields 12 with
                    | Panic => ([], Panic)
                    | Ret field12 =>
                        let '(droppedLine, err) := Strconv.Atoi field12 in
                        let dropped := GoInt.add dropped droppedLine in
                        match err with
                        | Some e => ([UnableDropped e], Ret (0, 0))
                        | None => scan_lines rest (GoInt.add n 1) queued dropped
                        end
                    end
                end
            end
        end
  end.

Definition parseProcfsNetFile (f : file) : list diag * result (Z * Z) :=
  match f with
  | None => ([], Ret (0, 0))
  | Some lines => scan_lines lines 0 0 0
  end.

(* ===================================================================== *)
(** ** [float64] of an integer *)
(* ===================================================================== *)

Module Float64.

(** The [float64] nearest to a whole number [n >= 0], as the whole number
    it stands for: below 2^53 it is [n]; above, [n] is cut to 53
    significant bits, to the nearest, to the even one on a tie. *)
Definition round53 (n : Z) : Z :=
  if n <? 2 ^ 53 then n
  else
    let k := Z.log2 n - 52 in
    let q := n / 2 ^ k in
    let r := n mod 2 ^ k in
    let half := 2 ^ (k - 1) in
    let up := if r <? half then 0
              else if half <? r then 1
              else if Z.even q then 0 else 1 in
    (q + up) * 2 ^ k.

(** The conversion [float64(z)] of an [int] or of a [uint64]. The sum of
    two [float64] that are whole numbers is [of_int] of their sum. *)
Definition of_int (z : Z) : Z :=
  if z <? 0 then - round53 (- z) else round53 z.

End Float64.

(* ===================================================================== *)
(** ** The metric vectors *)
(* ===================================================================== *)

(** A child of a [CounterVec] as [prometheus.counter] keeps it: [valBits],
    a [float64] given here by the whole number it stands for, and
    [valInt], a [uint64]. *)
Record counter_child : Type := {
  valBits : Z;
  valInt : Z
}.

Definition uint64 (z : Z) : Z := z mod 2 ^ 64.

(** [udpBufferQueued] (a [GaugeVec]) and [udpBufferDropped] (a
    [CounterVec]), each a map from the value of the [protocol] label to
    its child. A child of the gauge vector is the [float64] it was set
    to, a whole number in this program. *)
Record metrics : Type := {
  udpBufferQueued : gmap string Z;
  udpBufferDropped : gmap string counter_child
}.

(** [udpBufferQueued.WithLabelValues(label).Set(v)]. *)
Definition Gauge_Set (label : string) (v : Z) (m : metrics) : metrics :=
  {| udpBufferQueued := <[label := v]> (udpBufferQueued m);
     udpBufferDropped := udpBufferDropped m |}.

(** [udpBufferDropped.WithLabelValues(label)]: the child for the label,
    a new one holding zero when there is none yet. *)
Definition child (m : metrics) (label : string) : counter_child :=
  match udpBufferDropped m !! label with
  | Some c => {| valBits := valBits c; valInt := uint64 (valInt c) |}
  | None => {| valBits := 0; valInt := 0 |}
  end.

(** The value a counter child shows when the metrics are collected
    ([counter.Write]): [fval + float64(ival)]. *)
Definition counter (m : metrics) (label : string) : Z :=
  let c := child m label in
  Float64.of_int (valBits c + Float64.of_int (valInt c)).

Definition gauge (m : metrics) (label : string) : option Z :=
  udpBufferQueued m !! label.

(** [udpBufferDropped.WithLabelValues(label).Add(v)], for a [float64] [v]
    that is a whole number, as [float64] of an [int] is. A counter
    panics when asked to decrease. [ival := uint64(v)] is [v] itself
    below 2^64, a bound [float64] of an [int] does not reach (beyond it
    Go leaves the result open, and [v] modulo 2^64 stands for it). When
    [float64(ival) == v] the whole number goes to [valInt], which wraps
    around at 2^64; otherwise [v] is added to [valBits]. *)
Definition Counter_Add (label : string) (v : Z) (m : metrics) : result metrics :=
  if v <? 0 then Panic
  else
    let c := child m label in
    let ival := uint64 v in
    let c' := if Float64.of_int ival =? v
              then {| valBits := valBits c; valInt := uint64 (valInt c + ival) |}
              else {| valBits := Float64.of_int (valBits c + v); valInt := valInt c |} in
    Ret {| udpBufferQueued := udpBufferQueued m;
           udpBufferDropped := <[label := c']> (udpBufferDropped m) |}.

(* ===================================================================== *)
(** ** [watchUDPBuffers] *)
(* ===================================================================== *)

(** Lines 119-124, and again 132-137: the difference to the last total,
    set to zero when negative, with the value left in [droppedUDP]
    (resp. [droppedUDP6]) and what was printed. *)
Definition diff_dropped (dropped lastDropped : Z) : Z * Z * list diag :=
  let diff := GoInt.sub dropped lastDropped in
  if diff <? 0 then (0, lastDropped, [WentNegative])
  else (diff, dropped, []).

(** Lines 114-125, and again 127-138: one protocol in one iteration, with
    [Set(float64(queuedUDP))] and [Add(float64(diff))]. The result is the
    value left in [droppedUDP] (resp. [droppedUDP6]). *)
Definition watch_protocol (label : string) (f : file) (lastDropped : Z)
    (m : metrics) (out : list diag) : result (Z * metrics * list diag) :=
  match parseProcfsNetFile f with
  | (_, Panic) => Panic
  | (printed, Ret (queued, dropped)) =>
      let m := Gauge_Set label (Float64.of_int queued) m in
      let '(diff, dropped, notice) := diff_dropped dropped lastDropped in
      match Counter_Add label (Float64.of_int diff) m with
      | Panic => Panic
      | Ret m => Ret (dropped, m, (out ++ printed ++ notice)%list)
      end
  end.

(** The variables that live across the iterations of the loop, the
    metric vectors and the standard output. *)
Record loop_state : Type := {
  lastDropped : Z;
  lastDropped6 : Z;
  sink : metrics;
  stdout : list diag
}.

(** One iteration of the [for] loop; the two files are what the two
    paths under [/proc/<targetPID>/net] hold when they are opened. *)
Definition iteration (udp udp6 : file) (st : loop_state) : result loop_state :=
  match watch_protocol "udp" udp (lastDropped st) (sink st) (stdout st) with
  | Panic => Panic
  | Ret (droppedUDP, m, out) =>
      match watch_protocol "udp6" udp6 (lastDropped6 st) m out with
      | Panic => Panic
      | Ret (droppedUDP6, m, out) =>
          Ret {| lastDropped := droppedUDP; lastDropped6 := droppedUDP6;
                 sink := m; stdout := out |}
      end
  end.

(** The loop never ends by itself; this is its run over the first
    iterations, one pair of files for each. *)
Fixpoint iterations (ticks : list (file * file)) (st : loop_state) : result loop_state :=
  match ticks with
  | [] => Ret st
  | (udp, udp6) :: rest =>
      match iteration udp udp6 st with
      | Panic => Panic
      | Ret st => iterations rest st
      end
  end.

Definition no_metrics : metrics :=
  {| udpBufferQueued := ∅; udpBufferDropped := ∅ |}.

(** [watchUDPBuffers(lastDropped, lastDropped6)], observed over the
    first iterations. *)
Definition watchUDPBuffers (lastDropped lastDropped6 : Z) (ticks : list (file * file))
  : result loop_state :=
  iterations ticks {| lastDropped := lastDropped; lastDropped6 := lastDropped6;
                      sink := no_metrics; stdout := [] |}.

(** The applied differences and the stored totals of one protocol along
    a sequence of dropped totals, one for each iteration. *)
Fixpoint applied_deltas (lastDropped : Z) (totals : list Z) : list Z :=
  match totals with
  | [] => []
  | t :: rest =>
      let '(diff, dropped, _) := diff_dropped t lastDropped in
      diff :: applied_deltas dropped rest
  end.

Fixpoint baselines (lastDropped : Z) (totals : list Z) : list Z :=
  match totals with
  | [] => []
  | t :: rest =>
      let '(_, dropped, _) := diff_dropped t lastDropped in
      dropped :: baselines dropped rest
  end.

Definition sumZ (l : list Z) : Z := foldr Z.add 0 l.

(* ===================================================================== *)
(** ** [findPIDByName] and [walkProcFSStatus] *)
(* ===================================================================== *)

(** One call of the walk function by [filepath.Walk("/proc", ...)]: the
    path, whether the walk hands over an error for it (the [err]
    argument is not [nil]), and what [ioutil.ReadFile(path)] gives if it
    is called, [None] when the read fails. *)
Record walk_entry : Type := {
  path : string;
  walk_err : bool;
  read_file : option string
}.

(** The errors the walk function can return, and [io.EOF]. *)
Inductive error : Type :=
| EOF
| AtoiError (err : Strconv.NumError)
| ReadFileError.

Definition newline : ascii := ascii_of_nat 10.

(** [walkProcFSStatus(path, info, err)]. The package variables
    [targetProcName] and [targetPID] are passed in, and [targetPID] is
    handed back with the returned error. *)
Definition walkProcFSStatus (targetProcName : string) (e : walk_entry)
    (targetPID : string) : result (string * option error) :=
  if walk_err e then Ret (targetPID, None)
  else if Strings.Contains (path e) "/status"
          && Strings.Contains (path e) "/proc/"
          && (Strings.Count (path e) "/" =? 3)
  then
    match Strings.slice (path e) 6 (Strings.LastIndex (path e) "/") with
    | Panic => Panic
    | Ret digits =>
        let '(pid, err) := Strconv.Atoi digits in
        match err with
        | Some err => Ret (targetPID, Some (AtoiError err))
        | None =>
            match read_file e with
            | None => Ret (targetPID, Some ReadFileError)
            | Some f =>
                match Strings.slice f 6 (Strings.IndexByte f newline) with
                | Panic => Panic
                | Ret name =>
                    if String.eqb name targetProcName
                    then Ret (Strconv.Itoa pid, None)
                    else Ret (targetPID, None)
                end
            end
        end
    end
  else Ret (targetPID, None).

(** [filepath.Walk] over the entries in the order of the walk: it stops
    at the first error the walk function returns and returns it. *)
Fixpoint Walk (targetProcName : string) (entries : list walk_entry)
    (targetPID : string) : result (string * option error) :=
  match entries with
  | [] => Ret (targetPID, None)
  | e :: rest =>
      match walkProcFSStatus targetProcName e targetPID with
      | Panic => Panic
      | Ret (targetPID, Some err) => Ret (targetPID, Some err)
      | Ret (targetPID, None) => Walk targetProcName rest targetPID
      end
  end.

(** How a part of [main] ends: it goes on, or the process exits through
    [log.Fatal], or it dies of a panic. *)
Inductive fatal : Type :=
| FatalWalk (err : error)
| FatalNotFound.

Inductive outcome (A : Type) : Type :=
| GoesOn (a : A)
| LogFatal (why : fatal)
| Panics.
Arguments GoesOn {A} a.
Arguments LogFatal {A} why.
Arguments Panics {A}.

(** [findPIDByName(procName)], from [targetPID] empty as at the start
    of the program; the result is [targetPID]. *)
Definition findPIDByName (procName : string) (entries : list walk_entry)
  : outcome string :=
  match Walk procName entries "" with
  | Panic => Panics
  | Ret (targetPID, None) => GoesOn targetPID
  | Ret (targetPID, Some EOF) => GoesOn targetPID
  | Ret (_, Some err) => LogFatal (FatalWalk err)
  end.

(** Lines 55-58 of [main]: the search and the check that follows it. *)
Definition locate (procName : string) (entries : list walk_entry) : outcome string :=
  match findPIDByName procName entries with
  | GoesOn targetPID =>
      if String.eqb targetPID "" then LogFatal FatalNotFound else GoesOn targetPID
  | other => other
  end.

(** A [status] entry of process [pid] with the given first line. *)
Definition status_entry (pid name : string) : walk_entry :=
  {| path := "/proc/" +:+ pid +:+ "/status";
     walk_err := false;
     read_file := Some ("Name:" +:+ String (ascii_of_nat 9) name
                        +:+ String newline "Umask:  0022" +:+ String newline "") |}.

(* ===================================================================== *)
(** ** Vocabulary of the statements *)
(* ===================================================================== *)

(** A row the loop of [parseProcfsNetFile] reads through: it has the
    fields of index 4 and 12, the field of index 4 has a part after its
    first colon that [ParseInt] reads in base 16 within 32 bits as [rx],
    and [Atoi] reads the field of index 12 as [drops]. *)
Definition well_formed_row (line : string) (rx drops : Z) : Prop :=
  exists field4 part field12,
    Strings.Fields line !! 4%nat = Some field4
    /\ Strings.Split field4 ":" !! 1%nat = Some part
    /\ Strconv.ParseInt part 16 32 = (rx, None)
    /\ Strings.Fields line !! 12%nat = Some field12
    /\ Strconv.Atoi field12 = (drops, None).

(** Rows with the values they hold. *)
Definition well_formed_rows (rows : list string) (vals : list (Z * Z)) : Prop :=
  Forall2 (fun line v => well_formed_row line (fst v) (snd v)) rows vals.

(** A row on which one of the two conversions fails: the part after the
    colon of the field of index 4 is not a hexadecimal number of 32 bits,
    or the field of index 12 is not a decimal number of an [int]. *)
Definition unparsable_row (line : string) : Prop :=
  exists field4 part,
    Strings.Fields line !! 4%nat = Some field4
    /\ Strings.Split field4 ":" !! 1%nat = Some part
    /\ (snd (Strconv.ParseInt part 16 32) <> None
        \/ exists field12,
             Strings.Fields line !! 12%nat = Some field12
             /\ snd (Strconv.Atoi field12) <> None).

(** The files of an iteration are read without a panic. *)
Definition readable (f : file) : Prop := snd (parseProcfsNetFile f) <> Panic.

(** The dropped total [parseProcfsNetFile] returns for a file. *)
Definition dropped_total (f : file) : Z :=
  match snd (parseProcfsNetFile f) with
  | Ret (_, dropped) => dropped
  | Panic => 0
  end.

(** A range of totals that are counts held in an [int]. *)
Definition count (t : Z) : Prop := 0 <= t <= GoInt.max_int.

(** The header line of the socket tables and rows used as examples. *)
Definition udp_header : string :=
  "  sl  local_address rem_address   st tx_queue rx_queue tr tm->when retrnsmt   uid  timeout inode ref pointer drops".

Definition row_0A_0000_5 : string :=
  "   28: 00000000:0044 00000000:0000 07 0A:0000 00:00000000 00000000     0        0 17215 2 ffff8fd3b4a2c000 5".

Definition row_rx1_drops2 : string :=
  "   29: 00000000:0045 00000000:0000 07 00000000:00000001 00:00000000 00000000     0        0 17216 2 ffff8fd3b4a2c400 2".

Definition row_tx_not_hex : string :=
  "   30: 00000000:0046 00000000:0000 07 0G:00000003 00:00000000 00000000     0        0 17217 2 ffff8fd3b4a2c800 4".

Definition row_rx_not_hex : string :=
  "   31: 00000000:0047 00000000:0000 07 00000000:0000000G 00:00000000 00000000     0        0 17218 2 ffff8fd3b4a2cc00 4".

Definition row_no_colon : string :=
  "   32: 00000000:0048 00000000:0000 07 0000000000000000 00:00000000 00000000     0        0 17219 2 ffff8fd3b4a2d000 4".

Definition row_without_drops : string :=
  "   33: 00000000:0049 00000000:0000 07 00000000:00000000 00:00000000 00000000     0        0 17220 2 ffff8fd3b4a2d400".

(** The dropped totals of the two protocols along a run of the loop. *)
Definition udp_totals (ticks : list (file * file)) : list Z :=
  map (fun tick => dropped_total (fst tick)) ticks.

Definition udp6_totals (ticks : list (file * file)) : list Z :=
  map (fun tick => dropped_total (snd tick)) ticks.

(** Both files of every iteration are read without a panic. *)
Definition all_readable (ticks : list (file * file)) : Prop :=
  Forall (fun tick => readable (fst tick) /\ readable (snd tick)) ticks.

(** The total stored after a run. *)
Fixpoint final_baseline (lastDropped : Z) (totals : list Z) : Z :=
  match totals with
  | [] => lastDropped
  | t :: rest =>
      let '(_, dropped, _) := diff_dropped t lastDropped in
      final_baseline dropped rest
  end.

(** A file with one row whose dropped count is [drops]. *)
Definition one_row_file (drops : string) : file :=
  Some [udp_header;
        "   28: 00000000:0044 00000000:0000 07 00000000:00000000 00:00000000 00000000     0        0 17215 2 ffff8fd3b4a2c000 "
        +:+ drops].

(** An entry the walk function does not read: a directory, or a file
    other than a [status] file of a process. *)
Definition plain_entry (p : string) : walk_entry :=
  {| path := p; walk_err := false; read_file := None |}.

(** The [status] file of a process that is gone when it is read. *)
Definition vanished_status (pid : string) : walk_entry :=
  {| path := "/proc/" +:+ pid +:+ "/status"; walk_err := false; read_file := None |}.

(** An entry for which the walk itself reports an error. *)
Definition failed_entry (p : string) : walk_entry :=
  {| path := p; walk_err := true; read_file := None |}.

(** A [status] file whose record has no line end. *)
Definition truncated_status (pid : string) : walk_entry :=
  {| path := "/proc/" +:+ pid +:+ "/status"; walk_err := false;
     read_file := Some "Name:" |}.

(* ===================================================================== *)
(** ** Vocabulary of the further statements *)
(* ===================================================================== *)

(** The number written by a sequence of decimal digits after the number
    [n] read so far. *)
Fixpoint uint_value (d : Decimal.uint) (n : Z) : Z :=
  match d with
  | Decimal.Nil => n
  | Decimal.D0 d => uint_value d (10 * n)
  | Decimal.D1 d => uint_value d (10 * n + 1)
  | Decimal.D2 d => uint_value d (10 * n + 2)
  | Decimal.D3 d => uint_value d (10 * n + 3)
  | Decimal.D4 d => uint_value d (10 * n + 4)
  | Decimal.D5 d => uint_value d (10 * n + 5)
  | Decimal.D6 d => uint_value d (10 * n + 6)
  | Decimal.D7 d => uint_value d (10 * n + 7)
  | Decimal.D8 d => uint_value d (10 * n + 8)
  | Decimal.D9 d => uint_value d (10 * n + 9)
  end.

(** The queued total [parseProcfsNetFile] returns for a file. *)
Definition queued_total (f : file) : Z :=
  match snd (parseProcfsNetFile f) with
  | Ret (queued, _) => queued
  | Panic => 0
  end.

Definition tab : ascii := ascii_of_nat 9.

(** The [status] file in the directory [dir] of [/proc], read without an
    error, whose first line names [name] and which goes on with
    [rest]. *)
Definition status_file (dir name rest : string) : walk_entry :=
  {| path := "/proc/" +:+ dir +:+ "/status";
     walk_err := false;
     read_file := Some ("Name:" +:+ String tab (name +:+ String newline rest)) |}.

(** The entries of the [status] files of processes, given by number and
    name, in the order of the walk. *)
Definition process_entries (procs : list (Z * string)) : list walk_entry :=
  map (fun p => status_file (Strconv.Itoa (fst p)) (snd p) "Umask:  0022") procs.

(** The number of the last process of the list with the given name. *)
Fixpoint last_match (name : string) (procs : list (Z * string)) : option Z :=
  match procs with
  | [] => None
  | p :: rest =>
      match last_match name rest with
      | Some pid => Some pid
      | None => if String.eqb (snd p) name then Some (fst p) else None
      end
  end.

(** The entries the walk function looks into: those handed over without
    an error whose path has exactly three slashes. *)
Definition examined (e : walk_entry) : bool :=
  negb (walk_err e) && (Strings.Count (path e) "/" =? 3).

(** The [status] file in the directory [dir] of [/proc] with whatever
    the read gives. *)
Definition status_read (dir : string) (contents : option string) : walk_entry :=
  {| path := "/proc/" +:+ dir +:+ "/status"; walk_err := false; read_file := contents |}.

(* ===================================================================== *)
(** ** [simple-server.go] *)
(* ===================================================================== *)

(** A byte of a packet is a number below 256. *)
Definition is_byte (b : Z) : Prop := 0 <= b < 256.

(** [serve(pc, addr, buf)]: the result is the buffer handed to
    [pc.WriteTo], after [buf[2] |= 0x80]; the index panics on a buffer
    of fewer than three bytes. *)
Definition serve (buf : list Z) : result (list Z) :=
  match index buf 2 with
  | Panic => Panic
  | Ret b => Ret (<[2%nat := Z.lor b 128]> buf)
  end.

(** One turn of the loop of [main] on a datagram that is read without an
    error: [pc.ReadFrom] fills a fresh buffer of 1024 bytes, dropping
    what does not fit, and [serve] is started on the bytes read. *)
Definition serve_datagram (datagram : list Z) : result (list Z) :=
  serve (take 1024 datagram).

(** A file whose rows have the given dropped counts. *)
Definition rows_file (drops : list string) : file :=
  Some (udp_header
        :: map (fun d =>
                  "   28: 00000000:0044 00000000:0000 07 00000000:00000000 00:00000000 00000000     0        0 17215 2 ffff8fd3b4a2c000 "
                  +:+ d) drops).

(** A counter child after [Add] has put the whole number [v] into its
    integer part. *)
Definition add_child (c : counter_child) (v : Z) : counter_child :=
  {| valBits := valBits c; valInt := uint64 (valInt c + v) |}.

(** A counter child after the applied differences of a run have been
    added, each as [float64(diff)]. *)
Fixpoint add_deltas (c : counter_child) (deltas : list Z) : counter_child :=
  match deltas with
  | [] => c
  | d :: rest => add_deltas (add_child c (Float64.of_int d)) rest
  end.

(** What a counter child shows when collected. *)
Definition shown (c : counter_child) : Z :=
  Float64.of_int (valBits c + Float64.of_int (valInt c)).

(* ===================================================================== *)
(** * Properties *)
(* ===================================================================== *)

(** ** Arithmetic of [int] *)

Lemma GoInt_wrap_in_range z : GoInt.in_range (GoInt.wrap z).
Proof.
  unfold GoInt.in_range, GoInt.wrap, GoInt.min_int, GoInt.max_int, GoInt.bits.
  pose proof (Z.mod_pos_bound (z - - 2 ^ (64 - 1)) (2 ^ 64) ltac:(lia)).
  change (2 ^ (64 - 1)) with 9223372036854775808 in *.
  change (2 ^ 64) with 18446744073709551616 in *. lia.
Qed.

Lemma GoInt_wrap_id z : GoInt.in_range z -> GoInt.wrap z = z.
Proof.
  unfold GoInt.in_range, GoInt.wrap, GoInt.min_int, GoInt.max_int, GoInt.bits.
  change (2 ^ (64 - 1)) with 9223372036854775808.
  change (2 ^ 64) with 18446744073709551616.
  intros H. rewrite Z.mod_small by lia. lia.
Qed.

Lemma GoInt_add_wrap_l a b : GoInt.add (GoInt.wrap a) b = GoInt.wrap (a + b).
Proof.
  unfold GoInt.add, GoInt.wrap.
  replace ((a - GoInt.min_int) mod 2 ^ GoInt.bits + GoInt.min_int + b - GoInt.min_int)
    with ((a - GoInt.min_int) mod 2 ^ GoInt.bits + b) by lia.
  replace (a + b - GoInt.min_int) with ((a - GoInt.min_int) + b) by lia.
  rewrite Zplus_mod_idemp_l. reflexivity.
Qed.

Lemma max_int_value : GoInt.max_int = 9223372036854775807.
Proof. reflexivity. Qed.

Lemma min_int_value : GoInt.min_int = -9223372036854775808.
Proof. reflexivity. Qed.

Lemma GoInt_succ n : 0 <= n < GoInt.max_int -> GoInt.add n 1 = n + 1.
Proof.
  intros H. apply GoInt_wrap_id. unfold GoInt.in_range.
  rewrite min_int_value. lia.
Qed.

Lemma GoInt_sub_counts t b : count t -> count b -> GoInt.sub t b = t - b.
Proof.
  unfold count. intros Ht Hb. apply GoInt_wrap_id. unfold GoInt.in_range.
  rewrite min_int_value. rewrite max_int_value in *. lia.
Qed.

(** ** The library functions on the inputs of the program *)

Example ParseInt_hex_0A : Strconv.ParseInt "0A" 16 32 = (10, None).
Proof. reflexivity. Qed.

Example ParseInt_hex_neg : Strconv.ParseInt "-ff" 16 32 = (-255, None).
Proof. reflexivity. Qed.

Example ParseInt_hex_range :
  Strconv.ParseInt "FFFFFFFF" 16 32 = (2147483647, Some Strconv.ErrRange).
Proof. reflexivity. Qed.

Example ParseInt_hex_syntax : Strconv.ParseInt "0G" 16 32 = (0, Some Strconv.ErrSyntax).
Proof. reflexivity. Qed.

Example Atoi_5 : Strconv.Atoi "5" = (5, None).
Proof. reflexivity. Qed.

Example Atoi_empty : Strconv.Atoi "" = (0, Some Strconv.ErrSyntax).
Proof. reflexivity. Qed.

Example Atoi_sign_only : Strconv.Atoi "+" = (0, Some Strconv.ErrSyntax).
Proof. reflexivity. Qed.

Example Atoi_above_int :
  Strconv.Atoi "9223372036854775808" = (9223372036854775807, Some Strconv.ErrRange).
Proof. reflexivity. Qed.

Example Atoi_min_int :
  Strconv.Atoi "-9223372036854775808" = (-9223372036854775808, None).
Proof. reflexivity. Qed.

Example Itoa_20 : Strconv.Itoa 20 = "20".
Proof. reflexivity. Qed.

Example Itoa_0 : Strconv.Itoa 0 = "0".
Proof. reflexivity. Qed.

Example Fields_row :
  Strings.Fields "   28: 00000000:0044 00000000:0000 07 00000000:0000000A 00:00000000 00000000     0        0 17215 2 ffff8fd3b4a2c000 5  "
  = ["28:"; "00000000:0044"; "00000000:0000"; "07"; "00000000:0000000A";
     "00:00000000"; "00000000"; "0"; "0"; "17215"; "2"; "ffff8fd3b4a2c000"; "5"].
Proof. reflexivity. Qed.

Example Fields_blank : Strings.Fields "   " = [].
Proof. reflexivity. Qed.

Example Fields_no_break_space :
  Strings.Fields (String (ascii_of_nat 97)
                    (String (ascii_of_nat 194) (String (ascii_of_nat 160) "b")))
  = ["a"; "b"].
Proof. reflexivity. Qed.

Example Split_pair : Strings.Split "0A:0000" ":" = ["0A"; "0000"].
Proof. reflexivity. Qed.

Example Split_no_colon : Strings.Split "0A" ":" = ["0A"].
Proof. reflexivity. Qed.

Example Split_empty : Strings.Split "" ":" = [""].
Proof. reflexivity. Qed.

Example LastIndex_status : Strings.LastIndex "/proc/123/status" "/" = 9.
Proof. reflexivity. Qed.

Example slice_pid : Strings.slice "/proc/123/status" 6 9 = Ret "123".
Proof. reflexivity. Qed.

Example slice_out_of_range : Strings.slice "Name" 6 (-1) = Panic.
Proof. reflexivity. Qed.

(** ** [parseProcfsNetFile] *)

Lemma sumZ_cons x l : sumZ (x :: l) = x + sumZ l.
Proof. reflexivity. Qed.

(** The loop reads through well-formed rows and adds their values. *)
Lemma scan_lines_well_formed rows : forall vals rest n queued dropped,
  well_formed_rows rows vals ->
  1 <= n ->
  n + Z.of_nat (length rows) <= GoInt.max_int ->
  scan_lines (rows ++ rest) n (GoInt.wrap queued) (GoInt.wrap dropped)
  = scan_lines rest (n + Z.of_nat (length rows))
      (GoInt.wrap (queued + sumZ (map fst vals)))
      (GoInt.wrap (dropped + sumZ (map snd vals))).
Proof.
  induction rows as [|line rows IH]; intros vals rest n queued dropped Hwf Hn Hlen.
  - inversion Hwf; subst. cbn [app length map sumZ foldr].
    rewrite !Z.add_0_r. reflexivity.
  - inversion Hwf as [|? v ? vals' Hrow Hrows]; subst.
    destruct Hrow as (field4 & part & field12 & H4 & Hpart & Hq & H12 & Hd).
    cbn [app scan_lines].
    destruct (Z.ltb_spec n 1) as [Hlt|_]; [lia|].
    unfold index. rewrite H4, Hpart, Hq, H12, Hd.
    rewrite !GoInt_add_wrap_l.
    cbn [length] in Hlen.
    rewrite GoInt_succ by lia.
    rewrite IH with (vals := vals') by (auto; lia).
    cbn [length map]. rewrite !sumZ_cons.
    f_equal; [lia | f_equal; lia | f_equal; lia].
Qed.

(** A table: a header and well-formed rows. *)
Lemma parse_table header rows vals rest :
  well_formed_rows rows vals ->
  Z.of_nat (length rows) < GoInt.max_int ->
  parseProcfsNetFile (Some (header :: rows ++ rest))
  = scan_lines rest (1 + Z.of_nat (length rows))
      (GoInt.wrap (sumZ (map fst vals))) (GoInt.wrap (sumZ (map snd vals))).
Proof.
  intros Hwf Hlen. unfold parseProcfsNetFile. cbn [scan_lines].
  change (0 <? 1) with true. cbn iota.
  change (GoInt.add 0 1) with 1.
  change 0 with (GoInt.wrap 0) at 1 2.
  rewrite scan_lines_well_formed with (vals := vals) by (auto; lia).
  reflexivity.
Qed.

(** C2, amended. A header line followed by N well-formed rows: the first
    result is the sum over the rows of the hexadecimal value of the SECOND
    element (rx_queue) of the pair in the field of index 4, the second
    result is the sum over the rows of the decimal value of the field of
    index 12, both sums in the arithmetic of [int] (so exact when they fit
    in an [int]), and nothing is printed. *)
Theorem parse_sums_rx_and_drops header rows vals :
  well_formed_rows rows vals ->
  Z.of_nat (length rows) < GoInt.max_int ->
  parseProcfsNetFile (Some (header :: rows))
  = ([], Ret (GoInt.wrap (sumZ (map fst vals)), GoInt.wrap (sumZ (map snd vals))))
  /\ (GoInt.in_range (sumZ (map fst vals)) ->
      GoInt.in_range (sumZ (map snd vals)) ->
      parseProcfsNetFile (Some (header :: rows))
      = ([], Ret (sumZ (map fst vals), sumZ (map snd vals)))).
Proof.
  intros Hwf Hlen.
  assert (parseProcfsNetFile (Some (header :: rows))
          = ([], Ret (GoInt.wrap (sumZ (map fst vals)),
                      GoInt.wrap (sumZ (map snd vals))))) as Heq.
  { rewrite <- (app_nil_r rows) at 1.
    rewrite parse_table with (vals := vals) by assumption. reflexivity. }
  split; [exact Heq|].
  intros Hq Hd. rewrite Heq, !GoInt_wrap_id by assumption. reflexivity.
Qed.

Lemma well_formed_row_0A_0000_5 : well_formed_row row_0A_0000_5 0 5.
Proof. exists "0A:0000", "0000", "5". repeat split; reflexivity. Qed.

Lemma parse_sums_rx_and_drops_witness :
  well_formed_rows [row_0A_0000_5] [(0, 5)]
  /\ Z.of_nat (length [row_0A_0000_5]) < GoInt.max_int
  /\ parseProcfsNetFile (Some [udp_header; row_0A_0000_5]) = ([], Ret (0, 5)).
Proof.
  assert (well_formed_rows [row_0A_0000_5] [(0, 5)]) as Hwf.
  { repeat constructor. exact well_formed_row_0A_0000_5. }
  assert (Z.of_nat (length [row_0A_0000_5]) < GoInt.max_int) as Hlen.
  { reflexivity. }
  split; [exact Hwf|]. split; [exact Hlen|].
  exact (proj1 (parse_sums_rx_and_drops udp_header [row_0A_0000_5] [(0, 5)] Hwf Hlen)).
Defined.

(** C2 as stated fails: for the single row whose field of index 4 is
    [0A:0000] and whose field of index 12 is [5] the result is (0, 5),
    the value of the second element of the pair, and not (10, 5). *)
Lemma parse_0A_0000_5_is_not_10_5 :
  Strings.Fields row_0A_0000_5 !! 4%nat = Some "0A:0000"
  /\ Strings.Fields row_0A_0000_5 !! 12%nat = Some "5"
  /\ parseProcfsNetFile (Some [udp_header; row_0A_0000_5]) = ([], Ret (0, 5))
  /\ snd (parseProcfsNetFile (Some [udp_header; row_0A_0000_5])) <> Ret (10, 5).
Proof.
  repeat split; try reflexivity.
  vm_compute. discriminate.
Qed.

(** C7, amended. A header, well-formed rows, and then a row on which a
    conversion fails (the second element of the pair in the field of
    index 4 is not a hexadecimal number of 32 bits, or the field of index
    12 is not a decimal number), whatever follows it: the result is
    (0, 0), the sums of the rows before are dropped, and one line is
    printed. *)
Theorem parse_unparsable_row_zero header rows vals bad rest :
  well_formed_rows rows vals ->
  Z.of_nat (length rows) < GoInt.max_int ->
  unparsable_row bad ->
  snd (parseProcfsNetFile (Some (header :: rows ++ bad :: rest))) = Ret (0, 0)
  /\ exists err,
       fst (parseProcfsNetFile (Some (header :: rows ++ bad :: rest))) = [UnableQueued err]
       \/ fst (parseProcfsNetFile (Some (header :: rows ++ bad :: rest))) = [UnableDropped err].
Proof.
  intros Hwf Hlen (field4 & part & H4 & Hpart & Hbad).
  rewrite parse_table with (vals := vals) by assumption.
  cbn [scan_lines].
  destruct (Z.ltb_spec (1 + Z.of_nat (length rows)) 1) as [Hlt|_]; [lia|].
  unfold index. rewrite H4, Hpart.
  destruct (Strconv.ParseInt part 16 32) as [queuedLine [err|]] eqn:Hq.
  - split; [reflexivity|]. exists err. left. reflexivity.
  - destruct Hbad as [Hbad | (field12 & H12 & Hbad)]; [now elim Hbad|].
    rewrite H12.
    destruct (Strconv.Atoi field12) as [droppedLine [err|]] eqn:Hd.
    + split; [reflexivity|]. exists err. right. reflexivity.
    + now elim Hbad.
Qed.

Lemma well_formed_row_rx1_drops2 : well_formed_row row_rx1_drops2 1 2.
Proof. exists "00000000:00000001", "00000001", "2". repeat split; reflexivity. Qed.

Lemma unparsable_row_rx_not_hex : unparsable_row row_rx_not_hex.
Proof.
  exists "00000000:0000000G", "0000000G". repeat split; try reflexivity.
  left. vm_compute. discriminate.
Qed.

Lemma parse_unparsable_row_zero_witness :
  well_formed_rows [row_rx1_drops2] [(1, 2)]
  /\ Z.of_nat (length [row_rx1_drops2]) < GoInt.max_int
  /\ unparsable_row row_rx_not_hex
  /\ snd (parseProcfsNetFile (Some (udp_header :: [row_rx1_drops2] ++ row_rx_not_hex :: [])))
     = Ret (0, 0).
Proof.
  assert (well_formed_rows [row_rx1_drops2] [(1, 2)]) as Hwf.
  { repeat constructor. exact well_formed_row_rx1_drops2. }
  assert (Z.of_nat (length [row_rx1_drops2]) < GoInt.max_int) as Hlen.
  { reflexivity. }
  split; [exact Hwf|]. split; [exact Hlen|].
  split; [exact unparsable_row_rx_not_hex|].
  exact (proj1 (parse_unparsable_row_zero udp_header [row_rx1_drops2] [(1, 2)]
                  row_rx_not_hex [] Hwf Hlen unparsable_row_rx_not_hex)).
Defined.

(** C7 as stated fails: a row whose field of index 4 is not hexadecimal
    in its first element ([0G:00000003]) is read through, and the sums of
    the table, this row included, are returned. *)
Lemma parse_tx_not_hex_is_not_zero :
  Strings.Fields row_tx_not_hex !! 4%nat = Some "0G:00000003"
  /\ snd (Strconv.ParseInt "0G" 16 32) = Some Strconv.ErrSyntax
  /\ well_formed_rows [row_rx1_drops2] [(1, 2)]
  /\ parseProcfsNetFile (Some [udp_header; row_rx1_drops2; row_tx_not_hex]) = ([], Ret (4, 6))
  /\ snd (parseProcfsNetFile (Some [udp_header; row_rx1_drops2; row_tx_not_hex])) <> Ret (0, 0).
Proof.
  split; [reflexivity|]. split; [reflexivity|].
  split; [repeat constructor; exact well_formed_row_rx1_drops2|].
  split; [reflexivity|]. vm_compute. discriminate.
Qed.

(** C4: the code departs from the claim. A row that lacks the field of
    index 4 (here an empty line), a row whose field of index 4 has no
    colon, and a row that lacks the field of index 12 each make
    [parseProcfsNetFile] panic on an index out of range; nothing is
    printed, no (0, 0) is returned, and the iteration of the loop that
    reads such a file ends the process. *)
Theorem parse_panics_on_short_row :
  parseProcfsNetFile (Some [udp_header; ""]) = ([], Panic)
  /\ parseProcfsNetFile (Some [udp_header; row_no_colon]) = ([], Panic)
  /\ parseProcfsNetFile (Some [udp_header; row_without_drops]) = ([], Panic)
  /\ forall udp6 st, iteration (Some [udp_header; ""]) udp6 st = Panic.
Proof.
  repeat split; reflexivity.
Qed.

(** Any row with fewer than five fields, after the header, does so. *)
Lemma parse_panics_below_five_fields header line rest :
  (length (Strings.Fields line) <= 4)%nat ->
  parseProcfsNetFile (Some (header :: line :: rest)) = ([], Panic).
Proof.
  intros Hlen. unfold parseProcfsNetFile. cbn [scan_lines].
  change (0 <? 1) with true. cbn iota. change (GoInt.add 0 1) with 1.
  change (1 <? 1) with false. cbn iota. unfold index.
  rewrite (proj2 (lookup_ge_None (Strings.Fields line) 4)) by lia.
  reflexivity.
Qed.

(** ** [float64] of an [int] *)

Example float64_2_53_plus_1 : Float64.of_int (2 ^ 53 + 1) = 2 ^ 53.
Proof. reflexivity. Qed.

Example float64_2_53_plus_3 : Float64.of_int (2 ^ 53 + 3) = 2 ^ 53 + 4.
Proof. reflexivity. Qed.

Example float64_max_int : Float64.of_int GoInt.max_int = 2 ^ 63.
Proof. reflexivity. Qed.

Example float64_min_int : Float64.of_int GoInt.min_int = - 2 ^ 63.
Proof. reflexivity. Qed.

Example float64_small : Float64.of_int (-12345) = -12345.
Proof. reflexivity. Qed.

Lemma round53_shape n :
  2 ^ 53 <= n ->
  exists k q r,
    k = Z.log2 n - 52 /\ 1 <= k
    /\ n = q * 2 ^ k + r /\ 0 <= r < 2 ^ k
    /\ 2 ^ 52 <= q < 2 ^ 53
    /\ q = n / 2 ^ k /\ r = n mod 2 ^ k.
Proof.
  intros Hn.
  assert (0 < n) as Hpos by (change (2 ^ 53) with 9007199254740992 in Hn; lia).
  pose proof (Z.log2_spec n Hpos) as [Hlo Hhi].
  assert (53 <= Z.log2 n) as He.
  { change 53 with (Z.log2 (2 ^ 53)). apply Z.log2_le_mono. exact Hn. }
  set (k := Z.log2 n - 52).
  assert (1 <= k) as Hk by (unfold k; lia).
  assert (0 < 2 ^ k) as HP by (apply Z.pow_pos_nonneg; lia).
  assert (2 ^ Z.log2 n = 2 ^ 52 * 2 ^ k) as Hsplit.
  { rewrite <- Z.pow_add_r by lia. f_equal. unfold k. lia. }
  assert (2 ^ Z.succ (Z.log2 n) = 2 ^ 53 * 2 ^ k) as Hsplit'.
  { rewrite <- Z.pow_add_r by lia. f_equal. unfold k. lia. }
  rewrite Hsplit in Hlo. rewrite Hsplit' in Hhi.
  exists k, (n / 2 ^ k), (n mod 2 ^ k).
  pose proof (Z.div_mod n (2 ^ k) ltac:(lia)) as Hdm.
  pose proof (Z.mod_pos_bound n (2 ^ k) HP) as Hr.
  repeat split; try lia.
  - apply Z.div_le_lower_bound; lia.
  - apply Z.div_lt_upper_bound; lia.
Qed.

Lemma round53_cases n :
  2 ^ 53 <= n ->
  exists k q r c,
    k = Z.log2 n - 52 /\ 1 <= k
    /\ n = q * 2 ^ k + r /\ 0 <= r < 2 ^ k
    /\ 2 ^ 52 <= q < 2 ^ 53
    /\ q = n / 2 ^ k /\ r = n mod 2 ^ k
    /\ Float64.round53 n = (q + c) * 2 ^ k
    /\ 0 <= c <= 1
    /\ (2 * r < 2 ^ k -> c = 0)
    /\ (2 ^ k < 2 * r -> c = 1)
    /\ (2 * r = 2 ^ k -> c = if Z.even q then 0 else 1).
Proof.
  intros Hn.
  destruct (round53_shape n Hn) as (k & q & r & Hk & Hk1 & Hnqr & Hr & Hq & Hqd & Hrm).
  assert (2 * 2 ^ (k - 1) = 2 ^ k) as Hhalf.
  { rewrite <- Z.pow_succ_r by lia. f_equal. lia. }
  exists k, q, r.
  exists (if r <? 2 ^ (k - 1) then 0
          else if 2 ^ (k - 1) <? r then 1
          else if Z.even q then 0 else 1).
  repeat (split; [assumption || lia|]).
  split.
  { unfold Float64.round53. destruct (Z.ltb_spec n (2 ^ 53)); [lia|].
    cbv zeta. rewrite <- Hk, <- Hqd, <- Hrm. reflexivity. }
  destruct (Z.ltb_spec r (2 ^ (k - 1))); [repeat split; lia|].
  destruct (Z.ltb_spec (2 ^ (k - 1)) r); [repeat split; lia|].
  destruct (Z.even q); repeat split; lia.
Qed.

Lemma round53_small n : n < 2 ^ 53 -> Float64.round53 n = n.
Proof.
  intros Hn. unfold Float64.round53. destruct (Z.ltb_spec n (2 ^ 53)); [reflexivity | lia].
Qed.

Lemma round53_big_bounds n :
  2 ^ 53 <= n -> 2 ^ 53 <= Float64.round53 n <= 2 * n.
Proof.
  intros Hn.
  destruct (round53_cases n Hn)
    as (k & q & r & c & Hk & Hk1 & Hnqr & Hr & Hq & _ & _ & -> & Hc & _).
  assert (2 <= 2 ^ k) as HP.
  { change 2 with (2 ^ 1) at 1. apply Z.pow_le_mono_r; lia. }
  change (2 ^ 53) with 9007199254740992 in *.
  change (2 ^ 52) with 4503599627370496 in *.
  nia.
Qed.

Lemma round53_nonneg n : 0 <= n -> 0 <= Float64.round53 n <= 2 * n.
Proof.
  intros Hn. destruct (Z.lt_ge_cases n (2 ^ 53)) as [Hs|Hb].
  - rewrite round53_small by exact Hs. lia.
  - pose proof (round53_big_bounds n Hb). change (2 ^ 53) with 9007199254740992 in *. lia.
Qed.

Lemma round53_idempotent n :
  0 <= n -> Float64.round53 (Float64.round53 n) = Float64.round53 n.
Proof.
  intros Hn. destruct (Z.lt_ge_cases n (2 ^ 53)) as [Hs|Hb].
  { rewrite (round53_small n Hs). apply round53_small. exact Hs. }
  pose proof (round53_big_bounds n Hb) as [HR _].
  destruct (round53_cases n Hb)
    as (k & q & r & c & Hk & Hk1 & Hnqr & Hr & Hq & _ & _ & HRn & Hc & _).
  destruct (round53_cases _ HR)
    as (k' & q' & r' & c' & Hk' & _ & _ & _ & _ & Hq' & Hr' & HR' & _ & Hc0 & _).
  rewrite HR'. rewrite HRn in Hk', Hq', Hr' |- *.
  assert (0 < 2 ^ k) as HP by (apply Z.pow_pos_nonneg; lia).
  destruct (Z.eq_dec (q + c) (2 ^ 53)) as [Hfull|Hnot].
  - assert ((q + c) * 2 ^ k = 2 ^ (k + 53)) as Hpow.
    { rewrite Hfull, Z.pow_add_r by lia. lia. }
    rewrite Hpow in Hk', Hq', Hr' |- *.
    rewrite Z.log2_pow2 in Hk' by lia.
    assert (k' = k + 1) as -> by lia.
    assert (2 ^ (k + 53) = 2 ^ 52 * 2 ^ (k + 1)) as Hpow'.
    { rewrite <- Z.pow_add_r by lia. f_equal. lia. }
    rewrite Hpow' in Hq', Hr'.
    rewrite Z.div_mul in Hq' by (apply Z.pow_nonzero; lia).
    rewrite Z.mod_mul in Hr' by (apply Z.pow_nonzero; lia).
    assert (0 < 2 ^ (k + 1)) by (apply Z.pow_pos_nonneg; lia).
    rewrite (Hc0 ltac:(lia)). rewrite Hq', Hpow'. lia.
  - assert (Z.log2 ((q + c) * 2 ^ k) = k + 52) as Hlog.
    { apply Z.log2_unique; [lia|].
      rewrite Z.pow_succ_r by lia.
      rewrite Z.pow_add_r by lia.
      change (2 ^ 52) with 4503599627370496 in *.
      change (2 ^ 53) with 9007199254740992 in *. nia. }
    rewrite Hlog in Hk'. assert (k' = k) as -> by lia.
    rewrite Z.div_mul in Hq' by lia.
    rewrite Z.mod_mul in Hr' by lia.
    rewrite (Hc0 ltac:(lia)). rewrite Hq'. lia.
Qed.

Lemma round53_monotone a b :
  0 <= a <= b -> Float64.round53 a <= Float64.round53 b.
Proof.
  intros [Ha Hab].
  destruct (Z.lt_ge_cases b (2 ^ 53)) as [Hbs|Hbb].
  { rewrite !round53_small by lia. exact Hab. }
  destruct (Z.lt_ge_cases a (2 ^ 53)) as [Has|Hab53].
  { rewrite (round53_small a Has). pose proof (round53_big_bounds b Hbb). lia. }
  destruct (round53_cases a Hab53)
    as (ka & qa & ra & ca & Hka & Hka1 & Hanqr & Hra & Hqa & Hqad & _ & -> & Hca & Hca0 & Hca1 & Hcat).
  destruct (round53_cases b Hbb)
    as (kb & qb & rb & cb & Hkb & Hkb1 & Hbnqr & Hrb & Hqb & Hqbd & _ & -> & Hcb & Hcb0 & Hcb1 & Hcbt).
  assert (ka <= kb) as Hk.
  { subst ka kb. pose proof (Z.log2_le_mono a b Hab). lia. }
  assert (0 < 2 ^ ka) as HPa by (apply Z.pow_pos_nonneg; lia).
  destruct (Z.eq_dec ka kb) as [Heq|Hne].
  - subst kb. rewrite <- Heq in *. clear Heq.
    assert (qa <= qb) as Hq.
    { rewrite Hqad, Hqbd. apply Z.div_le_mono; lia. }
    clear Hqad Hqbd.
    destruct (Z.eq_dec qa qb) as [Hqe|Hqne].
    + subst qb. assert (ra <= rb) as Hr by lia.
      assert (ca <= cb); [|nia].
      destruct (Z.lt_trichotomy (2 * ra) (2 ^ ka)) as [Hlt|[Hmid|Hgt]].
      * rewrite (Hca0 Hlt). lia.
      * destruct (Z.eq_dec (2 * rb) (2 ^ ka)) as [Hmid'|Hgt'].
        -- rewrite (Hcat Hmid), (Hcbt Hmid'). apply Z.le_refl.
        -- rewrite (Hcb1 ltac:(lia)). lia.
      * rewrite (Hcb1 ltac:(lia)). lia.
    + nia.
  - assert (2 ^ (ka + 1) <= 2 ^ kb) as Hpow by (apply Z.pow_le_mono_r; lia).
    rewrite Z.pow_add_r in Hpow by lia. change (2 ^ 1) with 2 in Hpow.
    change (2 ^ 52) with 4503599627370496 in *.
    change (2 ^ 53) with 9007199254740992 in *.
    nia.
Qed.

Lemma of_int_nonneg z : 0 <= z -> Float64.of_int z = Float64.round53 z.
Proof. intros Hz. unfold Float64.of_int. destruct (Z.ltb_spec z 0); [lia | reflexivity]. Qed.

Lemma of_int_exact z : - 2 ^ 53 <= z <= 2 ^ 53 -> Float64.of_int z = z.
Proof.
  change (2 ^ 53) with 9007199254740992. intros Hz. unfold Float64.of_int.
  destruct (Z.ltb_spec z 0).
  - destruct (Z.eq_dec z (-9007199254740992)) as [->|Hne]; [reflexivity|].
    rewrite round53_small by (change (2 ^ 53) with 9007199254740992; lia). lia.
  - destruct (Z.eq_dec z 9007199254740992) as [->|Hne]; [reflexivity|].
    apply round53_small. change (2 ^ 53) with 9007199254740992. lia.
Qed.

(** [float64] of an applied difference: a whole number below 2^64 that
    [uint64] and [float64] give back as it is. *)
Lemma of_int_diff d :
  0 <= d <= GoInt.max_int ->
  0 <= Float64.of_int d <= 2 * d
  /\ uint64 (Float64.of_int d) = Float64.of_int d
  /\ Float64.of_int (Float64.of_int d) = Float64.of_int d.
Proof.
  rewrite max_int_value. intros Hd.
  rewrite (of_int_nonneg d) by lia.
  pose proof (round53_nonneg d ltac:(lia)) as Hb.
  split; [exact Hb|]. split.
  - unfold uint64. apply Z.mod_small.
    change (2 ^ 64) with 18446744073709551616. lia.
  - rewrite of_int_nonneg by lia. apply round53_idempotent. lia.
Qed.

Lemma of_int_monotone a b :
  0 <= a <= b -> Float64.of_int a <= Float64.of_int b.
Proof.
  intros Hab. rewrite !of_int_nonneg by lia. apply round53_monotone. exact Hab.
Qed.

(** ** The metric vectors *)

Lemma diff_dropped_nonneg dropped lastDropped :
  0 <= (diff_dropped dropped lastDropped).1.1.
Proof.
  unfold diff_dropped.
  destruct (Z.ltb_spec (GoInt.sub dropped lastDropped) 0); cbn; lia.
Qed.

Lemma diff_dropped_range dropped lastDropped :
  0 <= (diff_dropped dropped lastDropped).1.1 <= GoInt.max_int.
Proof.
  unfold diff_dropped.
  pose proof (GoInt_wrap_in_range (dropped - lastDropped)) as [_ Hmax].
  fold (GoInt.sub dropped lastDropped) in Hmax.
  rewrite max_int_value in *.
  destruct (Z.ltb_spec (GoInt.sub dropped lastDropped) 0); cbn; lia.
Qed.

Lemma uint64_idempotent z : uint64 (uint64 z) = uint64 z.
Proof. unfold uint64. apply Z.mod_mod. discriminate. Qed.

Lemma uint64_small z : 0 <= z < 2 ^ 64 -> uint64 z = z.
Proof. apply Z.mod_small. Qed.

Lemma child_uint64 m label : uint64 (valInt (child m label)) = valInt (child m label).
Proof.
  unfold child. destruct (udpBufferDropped m !! label); cbn [valInt];
    [apply uint64_idempotent | reflexivity].
Qed.

Lemma child_range m label : 0 <= valInt (child m label) < 2 ^ 64.
Proof.
  rewrite <- child_uint64. unfold uint64. apply Z.mod_pos_bound. reflexivity.
Qed.

Lemma add_child_zero m label : add_child (child m label) 0 = child m label.
Proof.
  unfold add_child. rewrite Z.add_0_r, child_uint64.
  destruct (child m label); reflexivity.
Qed.

Lemma counter_shown m label : counter m label = shown (child m label).
Proof. reflexivity. Qed.

(** [Add(float64(diff))] for a difference that is not negative: the
    integer part of the child takes it. *)
Lemma Counter_Add_diff label d m :
  0 <= d <= GoInt.max_int ->
  Counter_Add label (Float64.of_int d) m
  = Ret {| udpBufferQueued := udpBufferQueued m;
           udpBufferDropped :=
             <[label := add_child (child m label) (Float64.of_int d)]>
               (udpBufferDropped m) |}.
Proof.
  intros Hd. destruct (of_int_diff d Hd) as (Hnn & Hu & Hidem).
  unfold Counter_Add. destruct (Z.ltb_spec (Float64.of_int d) 0); [lia|].
  cbv zeta. rewrite Hu, Hidem, Z.eqb_refl. reflexivity.
Qed.

(** One protocol in one iteration, when its file is read. *)
Lemma watch_protocol_ret label f lastDropped m out printed queued dropped :
  parseProcfsNetFile f = (printed, Ret (queued, dropped)) ->
  exists m',
    watch_protocol label f lastDropped m out
    = Ret ((diff_dropped dropped lastDropped).1.2, m',
           (out ++ printed ++ (diff_dropped dropped lastDropped).2)%list)
    /\ gauge m' label = Some (Float64.of_int queued)
    /\ child m' label
       = add_child (child m label)
           (Float64.of_int (diff_dropped dropped lastDropped).1.1)
    /\ forall l, l <> label -> child m' l = child m l /\ gauge m' l = gauge m l.
Proof.
  intros Hparse. unfold watch_protocol. rewrite Hparse.
  pose proof (diff_dropped_range dropped lastDropped) as Hrange.
  destruct (diff_dropped dropped lastDropped) as [[diff dropped'] notice].
  cbn [fst snd] in *.
  rewrite Counter_Add_diff by assumption.
  eexists. split; [reflexivity|].
  unfold gauge, child; cbn [udpBufferQueued udpBufferDropped Gauge_Set].
  split; [apply lookup_insert_eq|].
  split.
  { rewrite lookup_insert_eq. unfold add_child; cbn [valBits valInt].
    rewrite uint64_idempotent. reflexivity. }
  intros l Hl. rewrite !lookup_insert_ne by congruence. split; reflexivity.
Qed.

Lemma readable_parse f :
  readable f ->
  exists printed,
    parseProcfsNetFile f = (printed, Ret (queued_total f, dropped_total f)).
Proof.
  unfold readable, queued_total, dropped_total.
  destruct (parseProcfsNetFile f) as [printed [[queued dropped]|]]; cbn.
  - intros _. exists printed. reflexivity.
  - intros H. now elim H.
Qed.

(** One iteration, when both files are read. *)
Lemma iteration_ret udp udp6 st :
  readable udp -> readable udp6 ->
  exists st',
    iteration udp udp6 st = Ret st'
    /\ lastDropped st' = (diff_dropped (dropped_total udp) (lastDropped st)).1.2
    /\ lastDropped6 st' = (diff_dropped (dropped_total udp6) (lastDropped6 st)).1.2
    /\ child (sink st') "udp"
       = add_child (child (sink st) "udp")
           (Float64.of_int (diff_dropped (dropped_total udp) (lastDropped st)).1.1)
    /\ child (sink st') "udp6"
       = add_child (child (sink st) "udp6")
           (Float64.of_int (diff_dropped (dropped_total udp6) (lastDropped6 st)).1.1)
    /\ (forall l, l <> "udp" -> l <> "udp6" ->
        child (sink st') l = child (sink st) l /\ gauge (sink st') l = gauge (sink st) l)
    /\ gauge (sink st') "udp" = Some (Float64.of_int (queued_total udp))
    /\ gauge (sink st') "udp6" = Some (Float64.of_int (queued_total udp6)).
Proof.
  intros (printed & Hudp)%readable_parse (printed6 & Hudp6)%readable_parse.
  unfold iteration.
  destruct (watch_protocol_ret "udp" udp (lastDropped st) (sink st) (stdout st) _ _ _ Hudp)
    as (m1 & -> & Hg1 & Hc1 & Ho1).
  destruct (watch_protocol_ret "udp6" udp6 (lastDropped6 st) m1
              (stdout st ++ printed ++ (diff_dropped (dropped_total udp) (lastDropped st)).2)%list
              _ _ _ Hudp6)
    as (m2 & -> & Hg2 & Hc2 & Ho2).
  eexists. split; [reflexivity|]. cbn [lastDropped lastDropped6 sink].
  split; [reflexivity|]. split; [reflexivity|].
  split; [rewrite (proj1 (Ho2 "udp" ltac:(discriminate))); exact Hc1|].
  split; [rewrite Hc2, (proj1 (Ho1 "udp6" ltac:(discriminate))); reflexivity|].
  split.
  { intros l H4 H6. destruct (Ho2 l H6) as [-> ->]. exact (Ho1 l H4). }
  split; [rewrite (proj2 (Ho2 "udp" ltac:(discriminate))); exact Hg1 | exact Hg2].
Qed.

(** ** The loop *)

Lemma sumZ_nonneg l : Forall (fun d => 0 <= d) l -> 0 <= sumZ l.
Proof.
  induction 1 as [|d l Hd _ IH]; [reflexivity|].
  rewrite sumZ_cons. lia.
Qed.

Lemma applied_deltas_nonneg totals : forall lastDropped,
  Forall (fun d => 0 <= d) (applied_deltas lastDropped totals).
Proof.
  induction totals as [|t rest IH]; intros lastDropped; cbn [applied_deltas].
  - constructor.
  - pose proof (diff_dropped_nonneg t lastDropped) as Hnn.
    destruct (diff_dropped t lastDropped) as [[diff dropped] notice].
    constructor; [exact Hnn | apply IH].
Qed.

Lemma applied_deltas_range totals : forall lastDropped,
  Forall (fun d => 0 <= d <= GoInt.max_int) (applied_deltas lastDropped totals).
Proof.
  induction totals as [|t rest IH]; intros lastDropped; cbn [applied_deltas].
  - constructor.
  - pose proof (diff_dropped_range t lastDropped) as Hrange.
    destruct (diff_dropped t lastDropped) as [[diff dropped] notice].
    constructor; [exact Hrange | apply IH].
Qed.

(** A run of the loop, when every file is read: it goes through every
    iteration, and the child of each protocol has taken the applied
    differences of its own dropped totals, each as [float64(diff)]. *)
Lemma iterations_ret ticks : forall st,
  all_readable ticks ->
  exists st',
    iterations ticks st = Ret st'
    /\ lastDropped st' = final_baseline (lastDropped st) (udp_totals ticks)
    /\ lastDropped6 st' = final_baseline (lastDropped6 st) (udp6_totals ticks)
    /\ child (sink st') "udp"
       = add_deltas (child (sink st) "udp")
           (applied_deltas (lastDropped st) (udp_totals ticks))
    /\ child (sink st') "udp6"
       = add_deltas (child (sink st) "udp6")
           (applied_deltas (lastDropped6 st) (udp6_totals ticks))
    /\ forall l, l <> "udp" -> l <> "udp6" -> child (sink st') l = child (sink st) l.
Proof.
  induction ticks as [|[udp udp6] rest IH]; intros st Hread.
  - exists st. cbn. repeat split; reflexivity.
  - inversion Hread as [|? ? [Hudp Hudp6] Hrest]; subst. cbn [fst snd] in *.
    destruct (iteration_ret udp udp6 st Hudp Hudp6)
      as (st1 & Hit & Hl & Hl6 & Hc & Hc6 & Ho & _).
    destruct (IH st1 Hrest) as (st' & Hrun & Hl' & Hl6' & Hc' & Hc6' & Ho').
    exists st'. cbn [iterations]. rewrite Hit.
    split; [exact Hrun|].
    cbn [udp_totals udp6_totals map fst snd final_baseline applied_deltas].
    fold (udp_totals rest). fold (udp6_totals rest).
    rewrite Hl'. rewrite Hl6'. rewrite Hc'. rewrite Hc6'.
    rewrite Hl. rewrite Hl6. rewrite Hc. rewrite Hc6.
    destruct (diff_dropped (dropped_total udp) (lastDropped st)) as [[diff d] notice].
    destruct (diff_dropped (dropped_total udp6) (lastDropped6 st)) as [[diff6 d6] notice6].
    cbn [fst snd add_deltas].
    repeat split; try reflexivity.
    intros l H4 H6. rewrite Ho' by assumption. exact (proj1 (Ho l H4 H6)).
Qed.

Lemma add_deltas_app c deltas : forall more,
  add_deltas c (deltas ++ more) = add_deltas (add_deltas c deltas) more.
Proof.
  revert c. induction deltas as [|d deltas IH]; intros c more; [reflexivity|].
  cbn [app add_deltas]. apply IH.
Qed.

Lemma applied_deltas_app totals : forall lastDropped more,
  applied_deltas lastDropped (totals ++ more)
  = (applied_deltas lastDropped totals
     ++ applied_deltas (final_baseline lastDropped totals) more)%list.
Proof.
  induction totals as [|t totals IH]; intros lastDropped more; [reflexivity|].
  cbn [app applied_deltas final_baseline].
  destruct (diff_dropped t lastDropped) as [[diff dropped] notice].
  rewrite IH. reflexivity.
Qed.

Lemma sumZ_app a b : sumZ (a ++ b) = sumZ a + sumZ b.
Proof.
  induction a as [|x a IH]; [reflexivity|].
  cbn [app]. rewrite !sumZ_cons, IH. lia.
Qed.

Lemma sumZ_float64_bounds deltas :
  Forall (fun d => 0 <= d <= GoInt.max_int) deltas ->
  0 <= sumZ (map Float64.of_int deltas) <= 2 * sumZ deltas.
Proof.
  induction 1 as [|d deltas Hd _ IH]; [cbn; lia|].
  cbn [map]. rewrite !sumZ_cons.
  destruct (of_int_diff d Hd) as (Hb & _). lia.
Qed.

(** While the integer part of a child does not pass 2^64, it holds the
    sum of what was added. *)
Lemma add_deltas_no_wrap deltas : forall c,
  Forall (fun d => 0 <= d <= GoInt.max_int) deltas ->
  0 <= valInt c ->
  valInt c + sumZ (map Float64.of_int deltas) < 2 ^ 64 ->
  valInt (add_deltas c deltas) = valInt c + sumZ (map Float64.of_int deltas)
  /\ valBits (add_deltas c deltas) = valBits c.
Proof.
  induction deltas as [|d deltas IH]; intros c Hrange Hc Hsum.
  - cbn. split; [lia | reflexivity].
  - inversion Hrange as [|? ? Hd Hrest]; subst.
    cbn [map add_deltas] in *. rewrite sumZ_cons in Hsum |- *.
    destruct (of_int_diff d Hd) as (Hb & _).
    pose proof (sumZ_float64_bounds deltas Hrest) as Hrestsum.
    assert (valInt (add_child c (Float64.of_int d)) = valInt c + Float64.of_int d) as Hstep.
    { unfold add_child; cbn [valInt]. apply uint64_small. lia. }
    destruct (IH (add_child c (Float64.of_int d)) Hrest) as [Hv Hb'];
      [rewrite Hstep; lia | rewrite Hstep; lia |].
    rewrite Hv, Hb', Hstep. split; [lia | reflexivity].
Qed.

(** What a child shows does not decrease while its integer part does
    not pass 2^64. *)
Lemma shown_add_deltas_no_wrap c deltas more :
  valBits c = 0 ->
  0 <= valInt c ->
  Forall (fun d => 0 <= d <= GoInt.max_int) (deltas ++ more) ->
  valInt c + sumZ (map Float64.of_int (deltas ++ more)) < 2 ^ 64 ->
  shown (add_deltas c deltas) <= shown (add_deltas c (deltas ++ more)).
Proof.
  intros Hbits Hc Hrange Hsum.
  apply Forall_app in Hrange as Hboth. destruct Hboth as [Hd Hm].
  rewrite map_app, sumZ_app in Hsum.
  pose proof (sumZ_float64_bounds deltas Hd) as Hds.
  pose proof (sumZ_float64_bounds more Hm) as Hms.
  destruct (add_deltas_no_wrap deltas c Hd Hc ltac:(lia)) as [Hv1 Hb1].
  destruct (add_deltas_no_wrap (deltas ++ more) c Hrange Hc
              ltac:(rewrite map_app, sumZ_app; lia)) as [Hv2 Hb2].
  rewrite map_app, sumZ_app in Hv2.
  unfold shown. rewrite Hv1, Hb1, Hv2, Hb2, Hbits, !Z.add_0_l.
  apply of_int_monotone. split.
  - rewrite of_int_nonneg by lia. apply round53_nonneg. lia.
  - apply of_int_monotone. lia.
Qed.

Lemma applied_deltas_sum_counts totals : forall b,
  count b -> Forall count totals ->
  sumZ (applied_deltas b totals) <= GoInt.max_int - b.
Proof.
  unfold count. rewrite max_int_value.
  induction totals as [|t rest IH]; intros b Hb Hcounts.
  - cbn. lia.
  - inversion Hcounts as [|? ? Ht Hrest]; subst.
    cbn [applied_deltas].
    assert (GoInt.sub t b = t - b) as Hsub.
    { apply GoInt_sub_counts; unfold count; rewrite max_int_value; lia. }
    unfold diff_dropped. rewrite Hsub.
    destruct (Z.ltb_spec (t - b) 0); rewrite sumZ_cons.
    + specialize (IH b Hb Hrest). lia.
    + specialize (IH t Ht Hrest). lia.
Qed.

(** C3, amended. Whatever the dropped totals are, every amount applied
    in an iteration is at least 0 (and an [int]), so [Add] never panics
    and a run of the loop in which the files are read goes through every
    iteration. The counter the exporter shows does not decrease from one
    iteration to a later one as long as the amounts added since the start
    of the exporter, each converted with [float64], add up to less than
    2^64, the size of the integer part of the counter; this is so
    whenever every dropped total is a count, 0 <= t <= max int. *)
Theorem dropped_amounts_never_negative :
  (forall lastDropped totals,
      Forall (fun d => 0 <= d <= GoInt.max_int) (applied_deltas lastDropped totals))
  /\ (forall ticks st, all_readable ticks -> exists st', iterations ticks st = Ret st')
  /\ (forall pre post lastDropped6,
        all_readable (pre ++ post) ->
        sumZ (map Float64.of_int (applied_deltas 0 (udp_totals (pre ++ post)))) < 2 ^ 64 ->
        exists st1 st2,
          watchUDPBuffers 0 lastDropped6 pre = Ret st1
          /\ watchUDPBuffers 0 lastDropped6 (pre ++ post) = Ret st2
          /\ counter (sink st1) "udp" <= counter (sink st2) "udp")
  /\ (forall pre post lastDropped,
        all_readable (pre ++ post) ->
        sumZ (map Float64.of_int (applied_deltas 0 (udp6_totals (pre ++ post)))) < 2 ^ 64 ->
        exists st1 st2,
          watchUDPBuffers lastDropped 0 pre = Ret st1
          /\ watchUDPBuffers lastDropped 0 (pre ++ post) = Ret st2
          /\ counter (sink st1) "udp6" <= counter (sink st2) "udp6")
  /\ (forall totals,
        Forall count totals ->
        sumZ (map Float64.of_int (applied_deltas 0 totals)) < 2 ^ 64).
Proof.
  split; [intros lastDropped totals; apply applied_deltas_range|].
  split.
  { intros ticks st Hread. destruct (iterations_ret ticks st Hread) as (st' & Hrun & _).
    exists st'. exact Hrun. }
  split; [|split].
  - intros pre post lastDropped6 Hread Hsum.
    apply Forall_app in Hread as Hboth. destruct Hboth as [Hpre _].
    unfold watchUDPBuffers.
    destruct (iterations_ret pre
                {| lastDropped := 0; lastDropped6 := lastDropped6;
                   sink := no_metrics; stdout := [] |} Hpre)
      as (st1 & Hrun1 & _ & _ & Hc1 & _).
    destruct (iterations_ret (pre ++ post)
                {| lastDropped := 0; lastDropped6 := lastDropped6;
                   sink := no_metrics; stdout := [] |} Hread)
      as (st2 & Hrun2 & _ & _ & Hc2 & _).
    exists st1, st2. split; [exact Hrun1|]. split; [exact Hrun2|].
    rewrite !counter_shown, Hc1, Hc2. cbn [lastDropped sink].
    unfold udp_totals in *. rewrite map_app, applied_deltas_app in Hsum |- *.
    apply shown_add_deltas_no_wrap; try reflexivity.
    + rewrite <- applied_deltas_app. apply applied_deltas_range.
    + exact Hsum.
  - intros pre post lastDropped Hread Hsum.
    apply Forall_app in Hread as Hboth. destruct Hboth as [Hpre _].
    unfold watchUDPBuffers.
    destruct (iterations_ret pre
                {| lastDropped := lastDropped; lastDropped6 := 0;
                   sink := no_metrics; stdout := [] |} Hpre)
      as (st1 & Hrun1 & _ & _ & _ & Hc1 & _).
    destruct (iterations_ret (pre ++ post)
                {| lastDropped := lastDropped; lastDropped6 := 0;
                   sink := no_metrics; stdout := [] |} Hread)
      as (st2 & Hrun2 & _ & _ & _ & Hc2 & _).
    exists st1, st2. split; [exact Hrun1|]. split; [exact Hrun2|].
    rewrite !counter_shown, Hc1, Hc2. cbn [lastDropped6 sink].
    unfold udp6_totals in *. rewrite map_app, applied_deltas_app in Hsum |- *.
    apply shown_add_deltas_no_wrap; try reflexivity.
    + rewrite <- applied_deltas_app. apply applied_deltas_range.
    + exact Hsum.
  - intros totals Hcounts.
    assert (count 0) as H0 by (split; discriminate).
    pose proof (applied_deltas_sum_counts totals 0 H0 Hcounts) as Hsum.
    pose proof (sumZ_float64_bounds _ (applied_deltas_range totals 0)) as Hb.
    rewrite max_int_value in Hsum.
    change (2 ^ 64) with 18446744073709551616. lia.
Qed.

Lemma dropped_amounts_never_negative_witness :
  all_readable ([(one_row_file "100", None)] ++ [(one_row_file "40", one_row_file "7")])
  /\ Forall count (udp_totals ([(one_row_file "100", None)]
                               ++ [(one_row_file "40", one_row_file "7")]))
  /\ exists st1 st2,
       watchUDPBuffers 0 0 [(one_row_file "100", None)] = Ret st1
       /\ watchUDPBuffers 0 0 ([(one_row_file "100", None)]
                               ++ [(one_row_file "40", one_row_file "7")]) = Ret st2
       /\ counter (sink st1) "udp" <= counter (sink st2) "udp".
Proof.
  assert (all_readable ([(one_row_file "100", None)]
                        ++ [(one_row_file "40", one_row_file "7")])) as Hread.
  { repeat constructor; vm_compute; discriminate. }
  assert (Forall count (udp_totals ([(one_row_file "100", None)]
                                    ++ [(one_row_file "40", one_row_file "7")]))) as Hcounts.
  { repeat constructor; vm_compute; discriminate. }
  split; [exact Hread|]. split; [exact Hcounts|].
  destruct dropped_amounts_never_negative as (_ & _ & Hudp & _ & Hbound).
  exact (Hudp [(one_row_file "100", None)] [(one_row_file "40", one_row_file "7")] 0
           Hread (Hbound _ Hcounts)).
Defined.

(** C3 as stated fails: the first file has one row with the dropped
    count max int, the second two such rows, whose sum wraps around to
    -2. The differences applied are max int and max int, neither is
    negative, each is added as [float64], that is as 2^63, and the
    integer part of the counter wraps around at 2^64: the counter shows
    2^63 after the first iteration and 0 after the second. *)
Lemma dropped_counter_decreases_on_wrap :
  udp_totals [(rows_file ["9223372036854775807"], None);
              (rows_file ["9223372036854775807"; "9223372036854775807"], None)]
  = [GoInt.max_int; -2]
  /\ applied_deltas 0 [GoInt.max_int; -2] = [GoInt.max_int; GoInt.max_int]
  /\ exists st1 st2,
       watchUDPBuffers 0 0 [(rows_file ["9223372036854775807"], None)] = Ret st1
       /\ watchUDPBuffers 0 0
            [(rows_file ["9223372036854775807"], None);
             (rows_file ["9223372036854775807"; "9223372036854775807"], None)]
          = Ret st2
       /\ counter (sink st1) "udp" = 2 ^ 63
       /\ counter (sink st2) "udp" = 0
       /\ counter (sink st2) "udp" < counter (sink st1) "udp".
Proof.
  split; [reflexivity|]. split; [reflexivity|].
  do 2 eexists. split; [vm_compute; reflexivity|]. split; [vm_compute; reflexivity|].
  repeat split; reflexivity.
Qed.

(** C9. A file that cannot be opened gives (0, 0) and nothing else: no
    error is handed to the caller and nothing is printed by the parser;
    the iteration goes on for that protocol with the gauge set to 0 and
    the dropped total taken as 0: the child of the counter takes the
    difference of 0 to the stored total, which is 0 and changes nothing
    when the stored total is a count. *)
Theorem parse_unopened_file_zero :
  parseProcfsNetFile None = ([], Ret (0, 0))
  /\ forall label lastDropped m out,
       exists m',
         watch_protocol label None lastDropped m out
         = Ret ((diff_dropped 0 lastDropped).1.2, m',
                (out ++ (diff_dropped 0 lastDropped).2)%list)
         /\ gauge m' label = Some 0
         /\ child m' label
            = add_child (child m label)
                (Float64.of_int (diff_dropped 0 lastDropped).1.1)
         /\ (count lastDropped -> counter m' label = counter m label)
         /\ forall l, l <> label -> counter m' l = counter m l.
Proof.
  split; [reflexivity|].
  intros label lastDropped m out.
  destruct (watch_protocol_ret label None lastDropped m out [] 0 0 eq_refl)
    as (m' & Hret & Hgauge & Hchild & Hother).
  exists m'. split; [exact Hret|]. split; [exact Hgauge|]. split; [exact Hchild|].
  split.
  - intros Hcount. rewrite !counter_shown, Hchild.
    assert (count 0) as H0 by (split; discriminate).
    assert ((diff_dropped 0 lastDropped).1.1 = 0) as ->.
    { unfold diff_dropped. rewrite GoInt_sub_counts by assumption.
      unfold count in Hcount. destruct (Z.ltb_spec (0 - lastDropped) 0); cbn; lia. }
    change (Float64.of_int 0) with 0. rewrite add_child_zero. reflexivity.
  - intros l Hl. rewrite !counter_shown, (proj1 (Hother l Hl)). reflexivity.
Qed.

Lemma parse_unopened_file_zero_witness :
  parseProcfsNetFile None = ([], Ret (0, 0))
  /\ count 7
  /\ exists m',
       watch_protocol "udp" None 7 no_metrics [] = Ret (7, m', [WentNegative])
       /\ gauge m' "udp" = Some 0
       /\ counter m' "udp" = counter no_metrics "udp"
       /\ counter m' "udp6" = counter no_metrics "udp6".
Proof.
  assert (count 7) as H7 by (split; discriminate).
  split; [exact (proj1 parse_unopened_file_zero)|]. split; [exact H7|].
  destruct (proj2 parse_unopened_file_zero "udp" 7 no_metrics [])
    as (m' & Hret & Hgauge & _ & Hcounter & Hother).
  exists m'. split; [exact Hret|]. split; [exact Hgauge|].
  split; [exact (Hcounter H7)|].
  exact (Hother "udp6" ltac:(discriminate)).
Defined.

(** The block on totals that are counts: no wrap-around. *)
Lemma diff_dropped_counts t lastDropped :
  count t -> count lastDropped ->
  diff_dropped t lastDropped
  = if t <? lastDropped then (0, lastDropped, [WentNegative])
    else (t - lastDropped, t, []).
Proof.
  intros Ht Hl. unfold diff_dropped. rewrite GoInt_sub_counts by assumption.
  destruct (Z.ltb_spec (t - lastDropped) 0), (Z.ltb_spec t lastDropped);
    try reflexivity; lia.
Qed.

Lemma diff_dropped_negative t lastDropped :
  GoInt.sub t lastDropped < 0 ->
  diff_dropped t lastDropped = (0, lastDropped, [WentNegative]).
Proof.
  intros Hneg. unfold diff_dropped.
  destruct (Z.ltb_spec (GoInt.sub t lastDropped) 0); [reflexivity | lia].
Qed.

(** C1, amended. When the difference of the dropped total [t] to the
    stored total, as the loop computes it in [int] arithmetic, is
    negative, the applied difference of the iteration is 0, the notice
    is printed and the stored total is KEPT at its old value; the next
    iteration with total [next] takes its difference to that old value:
    0 when that difference is negative, the difference otherwise. The
    computed difference is negative exactly when [t] is below the stored
    total whenever the subtraction does not overflow, so for any two
    counts. For the totals 100, 40, 45 the applied differences at the
    second and at the third iteration are 0 and 0, and the stored total
    stays 100. *)
Theorem negative_delta_keeps_stored_total :
  (forall lastDropped t next,
      GoInt.sub t lastDropped < 0 ->
      diff_dropped t lastDropped = (0, lastDropped, [WentNegative])
      /\ applied_deltas lastDropped [t; next]
         = [0; Z.max 0 (GoInt.sub next lastDropped)]
      /\ baselines lastDropped [t; next]
         = [lastDropped; if GoInt.sub next lastDropped <? 0 then lastDropped else next])
  /\ (forall lastDropped t,
        GoInt.in_range (t - lastDropped) ->
        GoInt.sub t lastDropped < 0 <-> t < lastDropped)
  /\ (forall lastDropped t,
        count lastDropped -> count t ->
        GoInt.sub t lastDropped < 0 <-> t < lastDropped)
  /\ applied_deltas 100 [40; 45] = [0; 0]
  /\ baselines 100 [40; 45] = [100; 100].
Proof.
  split; [|split; [|split; [|split; reflexivity]]].
  - intros lastDropped t next Hneg.
    pose proof (diff_dropped_negative t lastDropped Hneg) as Hkeep.
    split; [exact Hkeep|].
    cbn [applied_deltas baselines]. rewrite Hkeep.
    unfold diff_dropped.
    destruct (Z.ltb_spec (GoInt.sub next lastDropped) 0).
    + rewrite Z.max_l by lia. split; reflexivity.
    + rewrite Z.max_r by lia. split; reflexivity.
  - intros lastDropped t Hrange. unfold GoInt.sub.
    rewrite GoInt_wrap_id by exact Hrange. lia.
  - intros lastDropped t Hl Ht. rewrite GoInt_sub_counts by assumption. lia.
Qed.

Lemma negative_delta_keeps_stored_total_witness :
  GoInt.sub 40 100 < 0
  /\ diff_dropped 40 100 = (0, 100, [WentNegative])
  /\ applied_deltas 100 [40; 45] = [0; 0]
  /\ baselines 100 [40; 45] = [100; 100].
Proof.
  assert (GoInt.sub 40 100 < 0) as Hneg by reflexivity.
  split; [exact Hneg|].
  exact (proj1 negative_delta_keeps_stored_total 100 40 45 Hneg).
Defined.

(** C1 as stated fails: with the stored total 100, the totals 40 and
    then 45 give the applied differences 0 and 0, not 0 and 5, and the
    stored total is 100 after both, not 40; in the program, three
    iterations reading the totals 100, 40 and 45 leave the counter at
    100 and the stored total at 100. *)
Lemma totals_100_40_45_third_delta_not_5 :
  applied_deltas 100 [40; 45] <> [0; 5]
  /\ baselines 100 [40; 45] = [100; 100]
  /\ exists st',
       watchUDPBuffers 0 0
         [(one_row_file "100", None); (one_row_file "40", None); (one_row_file "45", None)]
       = Ret st'
       /\ counter (sink st') "udp" = 100
       /\ lastDropped st' = 100
       /\ stdout st' = [WentNegative; WentNegative].
Proof.
  split; [vm_compute; discriminate|].
  split; [reflexivity|].
  eexists. split; [vm_compute; reflexivity|].
  repeat split; reflexivity.
Qed.

Lemma last_cons_default (rest : list Z) : forall t b,
  List.last (t :: rest) b = List.last rest t.
Proof.
  induction rest as [|x rest IH]; intros t b; [reflexivity|].
  change (List.last (t :: x :: rest) b) with (List.last (x :: rest) b).
  rewrite (IH x b), (IH x t). reflexivity.
Qed.

(** Totals that never decrease, from a stored total that is not above
    the first: the applied differences add up to the distance from the
    stored total to the last total. *)
Lemma applied_deltas_sum_sorted totals : forall b,
  0 <= b ->
  Sorted Z.le (b :: totals) ->
  Forall (fun t => t <= GoInt.max_int) (b :: totals) ->
  sumZ (applied_deltas b totals) = List.last totals b - b
  /\ final_baseline b totals = List.last totals b.
Proof.
  induction totals as [|t rest IH]; intros b Hb Hsorted Hmax.
  - cbn. lia.
  - apply Sorted_inv in Hsorted as [Hsorted Hhd].
    apply HdRel_inv in Hhd.
    apply Forall_inv_tail in Hmax as Hmax'.
    apply Forall_inv in Hmax as Hbmax. apply Forall_inv in Hmax' as Htmax.
    cbn [applied_deltas final_baseline].
    rewrite diff_dropped_counts by (unfold count; lia).
    destruct (Z.ltb_spec t b); [lia|].
    rewrite sumZ_cons.
    destruct (IH t ltac:(lia) Hsorted Hmax') as [Hsum Hfinal].
    rewrite Hsum, Hfinal.
    rewrite last_cons_default. lia.
Qed.

(** C8, amended. A sequence of totals t0 <= t1 <= ... <= t_last, each
    at most max int, that never decreases, fed one per iteration to the
    loop started with the stored total [b], where 0 <= b <= t0 ([main]
    starts it with b = 0): the applied differences over the whole
    sequence add up to [t_last - b], which is [t_last] in the program;
    the differences applied after the first iteration add up to
    [t_last - t0]. *)
Theorem non_decreasing_totals_sum b t0 ts :
  0 <= b <= t0 ->
  Sorted Z.le (t0 :: ts) ->
  Forall (fun t => t <= GoInt.max_int) (t0 :: ts) ->
  sumZ (applied_deltas b (t0 :: ts)) = List.last ts t0 - b
  /\ sumZ (applied_deltas t0 ts) = List.last ts t0 - t0.
Proof.
  intros Hb Hsorted Hmax.
  assert (Sorted Z.le (b :: t0 :: ts)) as Hsorted'.
  { constructor; [exact Hsorted | constructor; lia]. }
  assert (Forall (fun t => t <= GoInt.max_int) (b :: t0 :: ts)) as Hmax'.
  { constructor; [|exact Hmax]. apply Forall_inv in Hmax. lia. }
  destruct (applied_deltas_sum_sorted (t0 :: ts) b ltac:(lia) Hsorted' Hmax')
    as [Hsum _].
  rewrite last_cons_default in Hsum.
  split; [exact Hsum|].
  apply (applied_deltas_sum_sorted ts t0 ltac:(lia) Hsorted Hmax).
Qed.

Lemma non_decreasing_totals_sum_witness :
  0 <= 0 <= 5
  /\ Sorted Z.le [5; 8]
  /\ Forall (fun t => t <= GoInt.max_int) [5; 8]
  /\ sumZ (applied_deltas 0 [5; 8]) = 8 - 0
  /\ sumZ (applied_deltas 5 [8]) = 8 - 5.
Proof.
  assert (0 <= 0 <= 5) as Hb by (split; discriminate).
  assert (Sorted Z.le [5; 8]) as Hsorted by (repeat constructor; discriminate).
  assert (Forall (fun t => t <= GoInt.max_int) [5; 8]) as Hmax
      by (repeat constructor; discriminate).
  split; [exact Hb|]. split; [exact Hsorted|]. split; [exact Hmax|].
  exact (non_decreasing_totals_sum 0 5 [8] Hb Hsorted Hmax).
Defined.

(** C8 as stated fails: the program starts the loop with the stored
    total 0, so for the totals 5 then 8 the applied differences are 5 and
    3; they add up to 8, which the counter holds, and not to 8 - 5. *)
Lemma totals_5_8_sum_is_not_3 :
  Sorted Z.le [5; 8]
  /\ udp_totals [(one_row_file "5", None); (one_row_file "8", None)] = [5; 8]
  /\ applied_deltas 0 [5; 8] = [5; 3]
  /\ sumZ (applied_deltas 0 [5; 8]) <> 8 - 5
  /\ exists st',
       watchUDPBuffers 0 0 [(one_row_file "5", None); (one_row_file "8", None)] = Ret st'
       /\ counter (sink st') "udp" = 8.
Proof.
  split; [repeat constructor; discriminate|].
  split; [reflexivity|]. split; [reflexivity|].
  split; [vm_compute; discriminate|].
  eexists. split; [vm_compute; reflexivity | reflexivity].
Qed.

Lemma diff_dropped_counts_max t lastDropped :
  count t -> count lastDropped ->
  (diff_dropped t lastDropped).1.2 = Z.max lastDropped t
  /\ (diff_dropped t lastDropped).1.1 = Z.max 0 (t - lastDropped).
Proof.
  intros Ht Hl. rewrite diff_dropped_counts by assumption.
  destruct (Z.ltb_spec t lastDropped); cbn; lia.
Qed.






(** ** The search for the process *)

Example locate_one_match :
  locate "statsd"
    [plain_entry "/proc"; plain_entry "/proc/10"; plain_entry "/proc/10/stat";
     status_entry "10" "statsd"; plain_entry "/proc/20"; status_entry "20" "other"]
  = GoesOn "10".
Proof. reflexivity. Qed.

Example locate_no_match :
  locate "statsd" [plain_entry "/proc"; plain_entry "/proc/20"; status_entry "20" "other"]
  = LogFatal FatalNotFound.
Proof. reflexivity. Qed.

(** C5: the code departs from the claim. With two entries whose name is
    the requested one, the walk goes on after the first, the second
    overwrites [targetPID], and the identifier returned is that of the
    LAST match in the order of the walk, whatever was found before. *)
Theorem locate_two_matches_gives_last :
  locate "statsd"
    [plain_entry "/proc"; plain_entry "/proc/10"; status_entry "10" "statsd";
     plain_entry "/proc/20"; status_entry "20" "statsd"]
  = GoesOn "20"
  /\ forall found,
       walkProcFSStatus "statsd" (status_entry "20" "statsd") found = Ret ("20", None).
Proof.
  split; [reflexivity|]. intros found. reflexivity.
Qed.

(** C6: the code departs from the claim. An entry for which the walk
    reports an error is skipped, but a [status] file that can no longer
    be read when [ioutil.ReadFile] is called makes the walk function
    return the error, which stops the walk and ends the program through
    [log.Fatal], although a match was already found; a record without a
    line end makes the program panic. *)
Theorem locate_unreadable_status_is_fatal :
  locate "statsd"
    [plain_entry "/proc"; plain_entry "/proc/10"; status_entry "10" "statsd";
     plain_entry "/proc/15"; vanished_status "15";
     plain_entry "/proc/20"; status_entry "20" "other"]
  = LogFatal (FatalWalk ReadFileError)
  /\ locate "statsd"
       [plain_entry "/proc"; plain_entry "/proc/10"; status_entry "10" "statsd";
        plain_entry "/proc/15"; truncated_status "15";
        plain_entry "/proc/20"; status_entry "20" "other"]
     = Panics
  /\ locate "statsd"
       [plain_entry "/proc"; plain_entry "/proc/10"; status_entry "10" "statsd";
        failed_entry "/proc/15"; failed_entry "/proc/15/status";
        plain_entry "/proc/20"; status_entry "20" "other"]
     = GoesOn "10".
Proof.
  repeat split; reflexivity.
Qed.

(** The walk over two stretches of entries: the second is walked from
    what the first leaves, unless the first stops the walk. *)
Lemma Walk_app name before : forall after targetPID,
  Walk name (before ++ after) targetPID
  = match Walk name before targetPID with
    | Ret (found, None) => Walk name after found
    | stopped => stopped
    end.
Proof.
  induction before as [|e before IH]; intros after targetPID; [reflexivity|].
  cbn [app Walk].
  destruct (walkProcFSStatus name e targetPID) as [[found [err|]]|];
    [reflexivity | apply IH | reflexivity].
Qed.

(** Wherever it stands in the walk, an entry on which the walk function
    returns an error ends the program, whatever was found before it and
    whatever comes after it. *)
Lemma locate_fatal_at_error name before e after found found' err :
  Walk name before "" = Ret (found, None) ->
  walkProcFSStatus name e found = Ret (found', Some err) ->
  err <> EOF ->
  locate name (before ++ e :: after) = LogFatal (FatalWalk err).
Proof.
  intros Hbefore He Herr. unfold locate, findPIDByName.
  rewrite Walk_app, Hbefore. cbn [Walk]. rewrite He.
  destruct err; [now elim Herr | reflexivity | reflexivity].
Qed.

(** Wherever the earlier matches stand, a match at the end of the walk
    is the one that is returned. *)
Lemma locate_last_match name before e found pid :
  Walk name before "" = Ret (found, None) ->
  walkProcFSStatus name e found = Ret (pid, None) ->
  pid <> "" ->
  locate name (before ++ [e]) = GoesOn pid.
Proof.
  intros Hbefore He Hpid. unfold locate, findPIDByName.
  rewrite Walk_app, Hbefore. cbn [Walk]. rewrite He.
  destruct (String.eqb_spec pid ""); [contradiction | reflexivity].
Qed.

(* ===================================================================== *)
(** * Further properties *)
(* ===================================================================== *)

(** ** [strconv]: reading back what [Itoa] writes *)

Lemma uint_value_of_uint_acc d : forall acc,
  uint_value d (Z.pos acc) = Z.pos (Pos.of_uint_acc d acc).
Proof.
  induction d as [|d IH|d IH|d IH|d IH|d IH|d IH|d IH|d IH|d IH|d IH]; intros acc;
    cbn [uint_value Pos.of_uint_acc]; [reflexivity|..];
    rewrite <- IH; f_equal; lia.
Qed.

Lemma uint_value_of_uint d : uint_value d 0 = Z.of_N (Pos.of_uint d).
Proof.
  induction d as [|d IH|d IH|d IH|d IH|d IH|d IH|d IH|d IH|d IH|d IH];
    cbn [uint_value Pos.of_uint]; [reflexivity | exact IH | ..];
    cbn [Z.mul Z.add Z.of_N]; apply uint_value_of_uint_acc.
Qed.

Lemma uint_value_to_uint p : uint_value (Pos.to_uint p) 0 = Z.pos p.
Proof.
  rewrite uint_value_of_uint, DecimalPos.Unsigned.of_to. reflexivity.
Qed.

Lemma uint_value_ge d : forall n, 0 <= n -> n <= uint_value d n.
Proof.
  induction d as [|d IH|d IH|d IH|d IH|d IH|d IH|d IH|d IH|d IH|d IH]; intros n Hn;
    cbn [uint_value]; [lia|..];
    (etransitivity; [|apply IH; lia]); lia.
Qed.

(** The loop of [ParseUint] on decimal digits whose number fits. *)
Lemma ParseUint_loop_digits maxVal d : forall n,
  0 <= n ->
  maxVal <= Strconv.maxUint64 ->
  uint_value d n <= maxVal ->
  Strconv.ParseUint_loop (NilEmpty.string_of_uint d) 10 maxVal n
  = (uint_value d n, None).
Proof.
  assert (Strconv.maxUint64 = 18446744073709551615) as Hmax64 by reflexivity.
  induction d as [|d IH|d IH|d IH|d IH|d IH|d IH|d IH|d IH|d IH|d IH];
    intros n Hn Hmax Hfit; cbn [uint_value NilEmpty.string_of_uint] in *;
    [reflexivity|..];
    (match goal with
     | H : uint_value d ?m <= maxVal |- _ =>
         pose proof (uint_value_ge d m ltac:(lia)) as Hge
     end);
    cbn [Strconv.ParseUint_loop];
    (match goal with
     | |- context [Strconv.digit_of ?c] =>
         let v := eval vm_compute in (Strconv.digit_of c) in
         change (Strconv.digit_of c) with v
     end);
    cbv iota beta;
    (match goal with
     | |- context [10 <=? ?k] => change (10 <=? k) with false
     end);
    cbv iota;
    change (Strconv.maxUint64 / 10 + 1) with 1844674407370955162;
    (destruct (Z.leb_spec 1844674407370955162 n); [lia|]);
    cbv zeta;
    (match goal with
     | |- context [Strconv.maxUint64 <? ?m] =>
         destruct (Z.ltb_spec Strconv.maxUint64 m); [lia|];
         destruct (Z.ltb_spec maxVal m); [lia|]
     end);
    cbn [orb];
    (match goal with
     | |- Strconv.ParseUint_loop _ _ _ ?m = (uint_value d ?m', None) =>
         replace m with m' by lia
     end);
    apply IH; lia.
Qed.

Lemma string_of_uint_nonempty p :
  exists c s, NilEmpty.string_of_uint (Pos.to_uint p) = String c s
              /\ Ascii.eqb c "+" = false /\ Ascii.eqb c "-" = false.
Proof.
  pose proof (DecimalPos.Unsigned.of_to p) as Hof.
  destruct (Pos.to_uint p) as [|d|d|d|d|d|d|d|d|d|d]; [discriminate|..];
    cbn [NilEmpty.string_of_uint]; do 2 eexists; repeat split; reflexivity.
Qed.

Lemma NilZero_string_of_uint_to_uint p :
  NilZero.string_of_uint (Pos.to_uint p) = NilEmpty.string_of_uint (Pos.to_uint p).
Proof.
  pose proof (DecimalPos.Unsigned.of_to p) as Hof.
  destruct (Pos.to_uint p); [discriminate|..]; reflexivity.
Qed.

Lemma ParseUint_to_uint p :
  Z.pos p <= Strconv.maxUint64 ->
  Strconv.ParseUint (NilEmpty.string_of_uint (Pos.to_uint p)) 10 GoInt.bits
  = (Z.pos p, None).
Proof.
  intros Hp. destruct (string_of_uint_nonempty p) as (c & s & Hs & _).
  unfold Strconv.ParseUint. rewrite Hs. rewrite <- Hs.
  rewrite ParseUint_loop_digits; rewrite ?uint_value_to_uint;
    [reflexivity | lia | reflexivity | exact Hp].
Qed.

Lemma Atoi_Itoa i : GoInt.in_range i -> Strconv.Atoi (Strconv.Itoa i) = (i, None).
Proof.
  unfold GoInt.in_range. rewrite min_int_value, max_int_value. intros Hi.
  assert (Strconv.maxUint64 = 18446744073709551615) as Hmax64 by reflexivity.
  destruct i as [|p|p]; [reflexivity|..];
    unfold Strconv.Itoa, Z.to_int, NilZero.string_of_int, Pos.to_int;
    rewrite NilZero_string_of_uint_to_uint.
  - destruct (string_of_uint_nonempty p) as (c & s & Hs & Hplus & Hminus).
    unfold Strconv.Atoi, Strconv.ParseInt. rewrite Hs, Hplus, Hminus. cbn [orb].
    rewrite <- Hs, ParseUint_to_uint by lia.
    change (2 ^ (GoInt.bits - 1)) with 9223372036854775808.
    cbn [negb andb].
    destruct (Z.leb_spec 9223372036854775808 (Z.pos p)); [lia | reflexivity].
  - unfold Strconv.Atoi, Strconv.ParseInt.
    change (Ascii.eqb "-" "-") with true. change (Ascii.eqb "-" "+") with false.
    cbn [orb negb andb].
    rewrite ParseUint_to_uint by lia.
    change (2 ^ (GoInt.bits - 1)) with 9223372036854775808.
    destruct (Z.ltb_spec 9223372036854775808 (Z.pos p)); [lia | reflexivity].
Qed.

(** Reading back a printed number: for every [int] [i], [Atoi] reads the
    string [Itoa] writes for [i] as [i], without an error; so the
    identifier kept in [targetPID] stands for the number read from the
    path. *)
Theorem Atoi_reads_back_Itoa i :
  GoInt.in_range i -> Strconv.Atoi (Strconv.Itoa i) = (i, None).
Proof. exact (Atoi_Itoa i). Qed.

Lemma Atoi_reads_back_Itoa_witness :
  GoInt.in_range (-31337) /\ Strconv.Atoi (Strconv.Itoa (-31337)) = (-31337, None).
Proof.
  assert (GoInt.in_range (-31337)) as Hi by (split; discriminate).
  split; [exact Hi | exact (Atoi_reads_back_Itoa (-31337) Hi)].
Defined.

(** ** [strconv]: the range of what [ParseInt] accepts *)

Lemma digit_of_nonneg c d : Strconv.digit_of c = Some d -> 0 <= d.
Proof.
  unfold Strconv.digit_of.
  destruct (Z.leb_spec 48 (Strconv.byte_val c)); cbn [andb].
  - destruct (Z.leb_spec (Strconv.byte_val c) 57); cbn [andb].
    + intros [= <-]. lia.
    + destruct (Z.leb_spec 97 (Strconv.lower (Strconv.byte_val c))); cbn [andb];
        [|discriminate].
      destruct (Strconv.lower (Strconv.byte_val c) <=? 122); [|discriminate].
      intros [= <-]. lia.
  - destruct (Z.leb_spec 97 (Strconv.lower (Strconv.byte_val c))); cbn [andb];
      [|discriminate].
    destruct (Strconv.lower (Strconv.byte_val c) <=? 122); [|discriminate].
    intros [= <-]. lia.
Qed.

Lemma ParseUint_loop_nonneg s : forall base maxVal n v,
  0 <= base -> 0 <= n ->
  Strconv.ParseUint_loop s base maxVal n = (v, None) -> 0 <= v.
Proof.
  induction s as [|c s IH]; intros base maxVal n v Hbase Hn; cbn [Strconv.ParseUint_loop].
  - intros [= <-]. exact Hn.
  - destruct (Strconv.digit_of c) as [d|] eqn:Hd; [|discriminate].
    apply digit_of_nonneg in Hd.
    destruct (base <=? d); [discriminate|].
    destruct (Strconv.maxUint64 / base + 1 <=? n); [discriminate|].
    cbv zeta.
    destruct ((Strconv.maxUint64 <? n * base + d) || (maxVal <? n * base + d));
      [discriminate|].
    apply IH; [exact Hbase | nia].
Qed.

Lemma ParseUint_nonneg s base bitSize v :
  0 <= base -> Strconv.ParseUint s base bitSize = (v, None) -> 0 <= v.
Proof.
  intros Hbase. unfold Strconv.ParseUint. destruct s; [discriminate|].
  apply ParseUint_loop_nonneg; [exact Hbase | reflexivity].
Qed.

Lemma ParseUint_loop_range s : forall base maxVal n un,
  Strconv.ParseUint_loop s base maxVal n = (un, Some Strconv.ErrRange) -> un = maxVal.
Proof.
  induction s as [|c s IH]; intros base maxVal n un; cbn [Strconv.ParseUint_loop];
    [discriminate|].
  destruct (Strconv.digit_of c) as [d|]; [|discriminate].
  destruct (base <=? d); [discriminate|].
  destruct (Strconv.maxUint64 / base + 1 <=? n); [intros [= <-]; reflexivity|].
  cbv zeta.
  destruct ((Strconv.maxUint64 <? n * base + d) || (maxVal <? n * base + d));
    [intros [= <-]; reflexivity|].
  apply IH.
Qed.

(** A number [ParseInt] returns without an error is in the signed range
    of the requested width. *)
Lemma ParseInt_in_range s base bitSize v :
  0 <= base -> 2 <= bitSize ->
  Strconv.ParseInt s base bitSize = (v, None) ->
  - 2 ^ (bitSize - 1) <= v <= 2 ^ (bitSize - 1) - 1.
Proof.
  intros Hbase Hbits. unfold Strconv.ParseInt.
  destruct s as [|c0 rest]; [discriminate|].
  pose proof (Z.pow_pos_nonneg 2 (bitSize - 1) ltac:(lia) ltac:(lia)) as Hpow.
  assert (2 ^ bitSize = 2 * 2 ^ (bitSize - 1)) as Hdouble.
  { rewrite <- Z.pow_succ_r by lia. f_equal. lia. }
  set (s1 := if Ascii.eqb c0 "+" || Ascii.eqb c0 "-" then rest else String c0 rest).
  destruct (Strconv.ParseUint s1 base bitSize) as [un err] eqn:Hun.
  destruct err as [[|]|].
  - discriminate.
  - assert (un = 2 ^ bitSize - 1) as ->.
    { unfold Strconv.ParseUint in Hun. destruct s1; [discriminate|].
      eapply ParseUint_loop_range; eassumption. }
    destruct (Ascii.eqb c0 "-"); cbn [negb andb].
    + destruct (Z.ltb_spec (2 ^ (bitSize - 1)) (2 ^ bitSize - 1)); [discriminate|].
      assert (2 <= 2 ^ (bitSize - 1)); [|lia].
      change 2 with (2 ^ 1) at 1. apply Z.pow_le_mono_r; lia.
    + destruct (Z.leb_spec (2 ^ (bitSize - 1)) (2 ^ bitSize - 1)); [discriminate | lia].
  - assert (0 <= un) as Hnn by (eapply ParseUint_nonneg; eassumption).
    destruct (Ascii.eqb c0 "-"); cbn [negb andb].
    + destruct (Z.ltb_spec (2 ^ (bitSize - 1)) un); [discriminate|].
      intros [= <-]. lia.
    + destruct (Z.leb_spec (2 ^ (bitSize - 1)) un); [discriminate|].
      intros [= <-]. lia.
Qed.

(** ** [parseProcfsNetFile]: more on rows and results *)

Lemma well_formed_row_bounds line rx drops :
  well_formed_row line rx drops ->
  -2147483648 <= rx <= 2147483647 /\ GoInt.in_range drops.
Proof.
  intros (field4 & part & field12 & _ & _ & Hq & _ & Hd).
  split.
  - apply (ParseInt_in_range part 16 32 rx) in Hq; [exact Hq | lia | lia].
  - apply (ParseInt_in_range field12 10 GoInt.bits drops) in Hd;
      [exact Hd | lia | discriminate].
Qed.

(** What a row that is read through adds: a queued value of 32 bits with
    its sign, which can be negative, and a dropped value that is an
    [int]. *)
Theorem well_formed_row_range line rx drops :
  well_formed_row line rx drops ->
  -2147483648 <= rx <= 2147483647 /\ GoInt.in_range drops.
Proof. exact (well_formed_row_bounds line rx drops). Qed.

Lemma well_formed_row_range_witness :
  well_formed_row row_rx1_drops2 1 2
  /\ -2147483648 <= 1 <= 2147483647 /\ GoInt.in_range 2.
Proof.
  split; [exact well_formed_row_rx1_drops2|].
  exact (well_formed_row_range row_rx1_drops2 1 2 well_formed_row_rx1_drops2).
Defined.

Lemma sumZ_bounds lo hi l :
  Forall (fun v => lo <= v <= hi) l ->
  lo * Z.of_nat (length l) <= sumZ l <= hi * Z.of_nat (length l).
Proof.
  induction 1 as [|v l Hv _ IH]; [cbn; lia|].
  rewrite sumZ_cons. cbn [length]. lia.
Qed.

Lemma well_formed_rows_queued_bounds rows vals :
  well_formed_rows rows vals ->
  length vals = length rows
  /\ Forall (fun v => -2147483648 <= v <= 2147483647) (map fst vals).
Proof.
  induction 1 as [|line v rows vals Hrow _ [IHlen IH]]; [split; [reflexivity | constructor]|].
  split; [cbn; congruence|].
  cbn [map]. constructor; [|exact IH].
  apply well_formed_row_bounds in Hrow. lia.
Qed.

(** With at most 2^32 rows the queued sum cannot wrap around: it is the
    exact sum of the rx_queue values. *)
Theorem parse_queued_sum_exact header rows vals :
  well_formed_rows rows vals ->
  Z.of_nat (length rows) <= 2 ^ 32 ->
  parseProcfsNetFile (Some (header :: rows))
  = ([], Ret (sumZ (map fst vals), GoInt.wrap (sumZ (map snd vals)))).
Proof.
  intros Hwf Hlen.
  rewrite <- (app_nil_r rows) at 1.
  rewrite parse_table with (vals := vals);
    [| exact Hwf | rewrite max_int_value; change (2 ^ 32) with 4294967296 in Hlen; lia].
  cbn [scan_lines]. do 3 f_equal.
  apply GoInt_wrap_id.
  destruct (well_formed_rows_queued_bounds rows vals Hwf) as [Hl Hb].
  pose proof (sumZ_bounds _ _ _ Hb) as Hsum.
  rewrite length_map, Hl in Hsum.
  unfold GoInt.in_range. rewrite min_int_value, max_int_value.
  change (2 ^ 32) with 4294967296 in Hlen. lia.
Qed.

Lemma parse_queued_sum_exact_witness :
  well_formed_rows [row_rx1_drops2; row_rx1_drops2] [(1, 2); (1, 2)]
  /\ Z.of_nat (length [row_rx1_drops2; row_rx1_drops2]) <= 2 ^ 32
  /\ parseProcfsNetFile (Some [udp_header; row_rx1_drops2; row_rx1_drops2])
     = ([], Ret (2, 4)).
Proof.
  assert (well_formed_rows [row_rx1_drops2; row_rx1_drops2] [(1, 2); (1, 2)]) as Hwf.
  { repeat constructor; exact well_formed_row_rx1_drops2. }
  assert (Z.of_nat (length [row_rx1_drops2; row_rx1_drops2]) <= 2 ^ 32) as Hlen.
  { discriminate. }
  split; [exact Hwf|]. split; [exact Hlen|].
  exact (parse_queued_sum_exact udp_header _ _ Hwf Hlen).
Defined.

Lemma scan_lines_outcome lines : forall n queued dropped,
  (fst (scan_lines lines n queued dropped) = []
   /\ forall q d, snd (scan_lines lines n queued dropped) = Ret (q, d) ->
                  GoInt.in_range queued -> GoInt.in_range dropped ->
                  GoInt.in_range q /\ GoInt.in_range d)
  \/ (snd (scan_lines lines n queued dropped) = Ret (0, 0)
      /\ exists err,
           fst (scan_lines lines n queued dropped) = [UnableQueued err]
           \/ fst (scan_lines lines n queued dropped) = [UnableDropped err]).
Proof.
  induction lines as [|text rest IH]; intros n queued dropped; cbn [scan_lines].
  - left. split; [reflexivity|]. intros q d [= <- <-]. auto.
  - destruct (n <? 1); [apply IH|].
    destruct (index (Strings.Fields text) 4) as [field4|];
      [|left; split; [reflexivity | discriminate]].
    destruct (index (Strings.Split field4 ":") 1) as [part|];
      [|left; split; [reflexivity | discriminate]].
    destruct (Strconv.ParseInt part 16 32) as [queuedLine [err|]].
    { right. split; [reflexivity|]. exists err. left. reflexivity. }
    destruct (index (Strings.Fields text) 12) as [field12|];
      [|left; split; [reflexivity | discriminate]].
    destruct (Strconv.Atoi field12) as [droppedLine [err|]].
    { right. split; [reflexivity|]. exists err. right. reflexivity. }
    destruct (IH (GoInt.add n 1) (GoInt.add queued queuedLine)
                (GoInt.add dropped droppedLine)) as [[Hnil Hrange]|Hzero].
    + left. split; [exact Hnil|]. intros q d Hret _ _.
      apply (Hrange q d Hret); apply GoInt_wrap_in_range.
    + right. exact Hzero.
Qed.

(** Whatever the file holds, [parseProcfsNetFile] prints at most one
    line, and when it prints one it returns (0, 0): it never prints on
    the way to a panic or to sums. *)
Theorem parse_prints_only_with_zero f :
  fst (parseProcfsNetFile f) = []
  \/ (snd (parseProcfsNetFile f) = Ret (0, 0)
      /\ exists err,
           fst (parseProcfsNetFile f) = [UnableQueued err]
           \/ fst (parseProcfsNetFile f) = [UnableDropped err]).
Proof.
  destruct f as [lines|]; [|left; reflexivity].
  cbn [parseProcfsNetFile].
  destruct (scan_lines_outcome lines 0 0 0) as [[Hnil _]|Hzero];
    [left; exact Hnil | right; exact Hzero].
Qed.

(** Whatever the file holds, the two numbers [parseProcfsNetFile]
    returns are values of an [int]. *)
Theorem parse_results_in_range f queued dropped :
  snd (parseProcfsNetFile f) = Ret (queued, dropped) ->
  GoInt.in_range queued /\ GoInt.in_range dropped.
Proof.
  assert (GoInt.in_range 0) as H0 by (split; discriminate).
  destruct f as [lines|]; cbn [parseProcfsNetFile snd].
  - destruct (scan_lines_outcome lines 0 0 0) as [[_ Hrange]|[Hzero _]].
    + intros Hret. apply (Hrange _ _ Hret); exact H0.
    + rewrite Hzero. intros [= <- <-]. split; exact H0.
  - intros [= <- <-]. split; exact H0.
Qed.

Lemma parse_results_in_range_witness :
  snd (parseProcfsNetFile (Some [udp_header; row_rx1_drops2])) = Ret (1, 2)
  /\ GoInt.in_range 1 /\ GoInt.in_range 2.
Proof.
  assert (snd (parseProcfsNetFile (Some [udp_header; row_rx1_drops2])) = Ret (1, 2))
    as Hret by reflexivity.
  split; [exact Hret|].
  exact (parse_results_in_range _ 1 2 Hret).
Defined.

Lemma Split_no_separator s sep : Strings.Count s sep = 0 -> Strings.Split s sep = [s].
Proof.
  induction s as [|c s IH]; [reflexivity|]. cbn [Strings.Count Strings.Split].
  assert (0 <= Strings.Count s sep) as Hnn.
  { clear. induction s as [|c' s IH]; cbn [Strings.Count]; [lia|].
    destruct (Ascii.eqb c' sep); lia. }
  destruct (Ascii.eqb c sep); [lia|].
  intros Hcount. rewrite IH by lia. reflexivity.
Qed.

(** A short row met after any number of well-formed rows: a row with
    fewer than five fields, a row whose field of index 4 holds no colon,
    and a row whose rx_queue is read but that has fewer than thirteen
    fields each make the call panic, whatever follows them; nothing is
    printed and the sums of the rows before are lost with the process. *)
Theorem parse_panics_after_rows header rows vals bad rest :
  well_formed_rows rows vals ->
  Z.of_nat (length rows) < GoInt.max_int ->
  (length (Strings.Fields bad) <= 4)%nat
  \/ (exists field4,
        Strings.Fields bad !! 4%nat = Some field4
        /\ Strings.Count field4 ":" = 0)
  \/ (exists field4 part rx,
        Strings.Fields bad !! 4%nat = Some field4
        /\ Strings.Split field4 ":" !! 1%nat = Some part
        /\ Strconv.ParseInt part 16 32 = (rx, None)
        /\ (length (Strings.Fields bad) <= 12)%nat) ->
  parseProcfsNetFile (Some (header :: rows ++ bad :: rest)) = ([], Panic).
Proof.
  intros Hwf Hlen Hbad.
  rewrite parse_table with (vals := vals) by assumption.
  cbn [scan_lines].
  destruct (Z.ltb_spec (1 + Z.of_nat (length rows)) 1) as [Hlt|_]; [lia|].
  unfold index.
  destruct Hbad as [Hshort | [(field4 & H4 & Hcolon) | (field4 & part & rx & H4 & Hpart & Hq & Hshort)]].
  - rewrite (proj2 (lookup_ge_None (Strings.Fields bad) 4)) by lia. reflexivity.
  - rewrite H4, (Split_no_separator _ _ Hcolon). reflexivity.
  - rewrite H4, Hpart, Hq.
    rewrite (proj2 (lookup_ge_None (Strings.Fields bad) 12)) by lia. reflexivity.
Qed.

Lemma parse_panics_after_rows_witness :
  well_formed_rows [row_rx1_drops2] [(1, 2)]
  /\ Z.of_nat (length [row_rx1_drops2]) < GoInt.max_int
  /\ parseProcfsNetFile
       (Some (udp_header :: [row_rx1_drops2] ++ row_without_drops :: [row_rx1_drops2]))
     = ([], Panic).
Proof.
  assert (well_formed_rows [row_rx1_drops2] [(1, 2)]) as Hwf.
  { repeat constructor. exact well_formed_row_rx1_drops2. }
  assert (Z.of_nat (length [row_rx1_drops2]) < GoInt.max_int) as Hlen by reflexivity.
  split; [exact Hwf|]. split; [exact Hlen|].
  apply (parse_panics_after_rows udp_header [row_rx1_drops2] [(1, 2)]
           row_without_drops [row_rx1_drops2] Hwf Hlen).
  right. right. exists "00000000:00000000", "00000000", 0.
  repeat split; reflexivity.
Defined.

Lemma sumZ_Permutation l l' : Permutation l l' -> sumZ l = sumZ l'.
Proof.
  induction 1 as [|x l l' _ IH|x y l|l l' l'' _ IH1 _ IH2];
    rewrite ?sumZ_cons; lia.
Qed.

Lemma well_formed_rows_Permutation rows rows' :
  Permutation rows rows' ->
  forall vals, well_formed_rows rows vals ->
  exists vals', Permutation vals vals' /\ well_formed_rows rows' vals'.
Proof.
  unfold well_formed_rows.
  induction 1 as [|x l l' _ IH|x y l|l l' l'' _ IH1 _ IH2]; intros vals Hwf.
  - exists vals. split; [reflexivity | exact Hwf].
  - inversion Hwf as [|? v ? vals0 Hx Hl]; subst.
    destruct (IH vals0 Hl) as (vals' & Hperm & Hwf').
    exists (v :: vals'). split; [constructor; exact Hperm | constructor; assumption].
  - inversion Hwf as [|? v ? vals0 Hy Hl]; subst.
    inversion Hl as [|? w ? vals1 Hx Hl']; subst.
    exists (w :: v :: vals1). split; [constructor | repeat constructor; assumption].
  - destruct (IH1 vals Hwf) as (vals' & Hperm & Hwf').
    destruct (IH2 vals' Hwf') as (vals'' & Hperm' & Hwf'').
    exists vals''. split; [etransitivity; eassumption | exact Hwf''].
Qed.

(** The order of the rows does not matter, nor does the header: two
    tables with the same well-formed rows in any order give the same
    result. *)
Theorem parse_rows_in_any_order header header' rows rows' vals :
  well_formed_rows rows vals ->
  Z.of_nat (length rows) < GoInt.max_int ->
  Permutation rows rows' ->
  parseProcfsNetFile (Some (header :: rows))
  = parseProcfsNetFile (Some (header' :: rows')).
Proof.
  intros Hwf Hlen Hperm.
  destruct (well_formed_rows_Permutation rows rows' Hperm vals Hwf)
    as (vals' & Hvals & Hwf').
  rewrite <- (app_nil_r rows), <- (app_nil_r rows').
  rewrite parse_table with (vals := vals) by assumption.
  rewrite parse_table with (vals := vals');
    [| exact Hwf' | rewrite <- (Permutation_length Hperm); exact Hlen].
  cbn [scan_lines].
  rewrite (sumZ_Permutation (map fst vals) (map fst vals')) by (apply Permutation_map; exact Hvals).
  rewrite (sumZ_Permutation (map snd vals) (map snd vals')) by (apply Permutation_map; exact Hvals).
  reflexivity.
Qed.

Lemma parse_rows_in_any_order_witness :
  well_formed_rows [row_rx1_drops2; row_0A_0000_5] [(1, 2); (0, 5)]
  /\ Z.of_nat (length [row_rx1_drops2; row_0A_0000_5]) < GoInt.max_int
  /\ Permutation [row_rx1_drops2; row_0A_0000_5] [row_0A_0000_5; row_rx1_drops2]
  /\ parseProcfsNetFile (Some [udp_header; row_rx1_drops2; row_0A_0000_5])
     = parseProcfsNetFile (Some [""; row_0A_0000_5; row_rx1_drops2]).
Proof.
  assert (well_formed_rows [row_rx1_drops2; row_0A_0000_5] [(1, 2); (0, 5)]) as Hwf.
  { repeat constructor;
      [exact well_formed_row_rx1_drops2 | exact well_formed_row_0A_0000_5]. }
  assert (Z.of_nat (length [row_rx1_drops2; row_0A_0000_5]) < GoInt.max_int) as Hlen
      by reflexivity.
  assert (Permutation [row_rx1_drops2; row_0A_0000_5] [row_0A_0000_5; row_rx1_drops2])
    as Hperm by constructor.
  split; [exact Hwf|]. split; [exact Hlen|]. split; [exact Hperm|].
  exact (parse_rows_in_any_order udp_header "" _ _ _ Hwf Hlen Hperm).
Defined.

(** ** [watchUDPBuffers]: more on runs of the loop *)

Lemma readable_or_panic f : readable f \/ snd (parseProcfsNetFile f) = Panic.
Proof.
  unfold readable. destruct (snd (parseProcfsNetFile f)); [left; discriminate | right; reflexivity].
Qed.

Lemma watch_protocol_panic label f lastDropped m out :
  snd (parseProcfsNetFile f) = Panic ->
  watch_protocol label f lastDropped m out = Panic.
Proof.
  unfold watch_protocol. destruct (parseProcfsNetFile f) as [printed [[queued dropped]|]];
    [discriminate | reflexivity].
Qed.

Lemma iteration_panic udp udp6 st :
  snd (parseProcfsNetFile udp) = Panic \/ snd (parseProcfsNetFile udp6) = Panic ->
  iteration udp udp6 st = Panic.
Proof.
  intros Hpanic. unfold iteration.
  destruct (watch_protocol "udp" udp (lastDropped st) (sink st) (stdout st))
    as [[[droppedUDP m] out]|] eqn:Hudp; [|reflexivity].
  destruct Hpanic as [Hp|Hp].
  - rewrite watch_protocol_panic in Hudp by exact Hp. discriminate.
  - rewrite watch_protocol_panic by exact Hp. reflexivity.
Qed.

Lemma iterations_ret_iff ticks : forall st,
  (exists st', iterations ticks st = Ret st') <-> all_readable ticks.
Proof.
  induction ticks as [|[udp udp6] rest IH]; intros st.
  - split; [constructor | exists st; reflexivity].
  - split.
    + intros [st' Hrun]. cbn [iterations] in Hrun.
      destruct (readable_or_panic udp) as [Hudp|Hudp];
        [|rewrite iteration_panic in Hrun by (left; exact Hudp); discriminate].
      destruct (readable_or_panic udp6) as [Hudp6|Hudp6];
        [|rewrite iteration_panic in Hrun by (right; exact Hudp6); discriminate].
      destruct (iteration_ret udp udp6 st Hudp Hudp6) as (st1 & Hit & _).
      rewrite Hit in Hrun.
      constructor; [split; assumption|].
      apply (IH st1). exists st'. exact Hrun.
    + intros Hread. destruct (iterations_ret _ st Hread) as (st' & Hrun & _).
      exists st'. exact Hrun.
Qed.

(** A run of the loop goes through all its iterations exactly when no
    file makes [parseProcfsNetFile] panic: nothing else in the loop can
    end the process, and the counter is never asked to decrease. *)
Theorem loop_survives_iff_readable ticks st :
  (exists st', iterations ticks st = Ret st') <-> all_readable ticks.
Proof. exact (iterations_ret_iff ticks st). Qed.

Lemma loop_survives_iff_readable_witness :
  all_readable [(one_row_file "3", None)]
  /\ (exists st',
        iterations [(one_row_file "3", None)]
          {| lastDropped := 0; lastDropped6 := 0; sink := no_metrics; stdout := [] |}
        = Ret st')
  /\ ~ all_readable [(one_row_file "3", None); (Some [udp_header; ""], None)].
Proof.
  assert (all_readable [(one_row_file "3", None)]) as Hread.
  { repeat constructor; vm_compute; discriminate. }
  split; [exact Hread|]. split.
  - exact (proj2 (loop_survives_iff_readable _ _) Hread).
  - intros Hall.
    destruct (proj2 (loop_survives_iff_readable
                       [(one_row_file "3", None); (Some [udp_header; ""], None)]
                       {| lastDropped := 0; lastDropped6 := 0;
                          sink := no_metrics; stdout := [] |}) Hall)
      as [st' Hrun].
    vm_compute in Hrun. discriminate Hrun.
Defined.

Lemma child_no_metrics label : child no_metrics label = {| valBits := 0; valInt := 0 |}.
Proof. unfold child, no_metrics; cbn [udpBufferDropped]. rewrite lookup_empty. reflexivity. Qed.

(** Along any run in which the files are read, the counter child of each
    protocol takes exactly the differences applied to its own totals,
    each as [float64(diff)], into its integer part, which counts modulo
    2^64 and so holds the old value plus their sum as long as that is
    below 2^64; its float part is not touched, its stored total follows
    its own totals, the other protocol has no part in either, and no
    other child of the counter vector is touched. *)
Theorem counters_grow_by_applied_deltas ticks st :
  all_readable ticks ->
  exists st',
    iterations ticks st = Ret st'
    /\ lastDropped st' = final_baseline (lastDropped st) (udp_totals ticks)
    /\ lastDropped6 st' = final_baseline (lastDropped6 st) (udp6_totals ticks)
    /\ child (sink st') "udp"
       = add_deltas (child (sink st) "udp")
           (applied_deltas (lastDropped st) (udp_totals ticks))
    /\ child (sink st') "udp6"
       = add_deltas (child (sink st) "udp6")
           (applied_deltas (lastDropped6 st) (udp6_totals ticks))
    /\ (forall l, l <> "udp" -> l <> "udp6" -> child (sink st') l = child (sink st) l)
    /\ (forall c deltas,
          Forall (fun d => 0 <= d <= GoInt.max_int) deltas ->
          0 <= valInt c ->
          valInt c + sumZ (map Float64.of_int deltas) < 2 ^ 64 ->
          valInt (add_deltas c deltas) = valInt c + sumZ (map Float64.of_int deltas)
          /\ valBits (add_deltas c deltas) = valBits c).
Proof.
  intros Hread.
  destruct (iterations_ret ticks st Hread) as (st' & Hrun & Hl & Hl6 & Hc & Hc6 & Ho).
  exists st'. repeat (split; [assumption|]).
  intros c deltas. apply add_deltas_no_wrap.
Qed.

Lemma counters_grow_by_applied_deltas_witness :
  all_readable [(one_row_file "5", one_row_file "9"); (one_row_file "8", one_row_file "2")]
  /\ exists st',
       iterations [(one_row_file "5", one_row_file "9"); (one_row_file "8", one_row_file "2")]
         {| lastDropped := 0; lastDropped6 := 0; sink := no_metrics; stdout := [] |}
       = Ret st'
       /\ lastDropped st' = 8
       /\ lastDropped6 st' = 9
       /\ child (sink st') "udp" = {| valBits := 0; valInt := 8 |}
       /\ child (sink st') "udp6" = {| valBits := 0; valInt := 9 |}.
Proof.
  assert (all_readable [(one_row_file "5", one_row_file "9");
                        (one_row_file "8", one_row_file "2")]) as Hread.
  { repeat constructor; vm_compute; discriminate. }
  split; [exact Hread|].
  destruct (counters_grow_by_applied_deltas _
              {| lastDropped := 0; lastDropped6 := 0; sink := no_metrics; stdout := [] |}
              Hread)
    as (st' & Hrun & Hl & Hl6 & Hc & Hc6 & _).
  exists st'. repeat split; assumption.
Defined.

Lemma running_max_counts totals : forall b,
  count b -> Forall count totals ->
  final_baseline b totals = foldl Z.max b totals
  /\ sumZ (applied_deltas b totals) = foldl Z.max b totals - b.
Proof.
  induction totals as [|t rest IH]; intros b Hb Hcounts.
  - cbn. lia.
  - inversion Hcounts as [|? ? Ht Hrest]; subst.
    cbn [final_baseline applied_deltas foldl].
    destruct (diff_dropped_counts_max t b Ht Hb) as [Hmax Hdiff].
    destruct (diff_dropped t b) as [[diff dropped] notice].
    cbn [fst snd] in Hmax, Hdiff. subst.
    destruct (IH (Z.max b t)) as [-> Hsum]; [unfold count in *; lia | exact Hrest |].
    rewrite sumZ_cons, Hsum. split; [reflexivity | lia].
Qed.

Lemma running_max_bound B totals : forall b,
  b <= B -> Forall (fun t => 0 <= t <= B) totals -> foldl Z.max b totals <= B.
Proof.
  induction totals as [|t rest IH]; intros b Hb Hbound; [exact Hb|].
  inversion Hbound; subst. cbn [foldl]. apply IH; [lia | assumption].
Qed.

Lemma map_of_int_exact deltas :
  Forall (fun d => 0 <= d) deltas ->
  sumZ deltas <= 2 ^ 53 ->
  map Float64.of_int deltas = deltas.
Proof.
  induction 1 as [|d deltas Hd Hrest IH]; [reflexivity|].
  rewrite sumZ_cons. intros Hsum. pose proof (sumZ_nonneg deltas Hrest).
  cbn [map]. rewrite IH by lia.
  rewrite of_int_exact by (change (2 ^ 53) with 9007199254740992 in *; lia).
  reflexivity.
Qed.

(** Started as [main] starts it, and while the dropped totals are whole
    numbers from 0 to 2^53, which [float64] holds exactly, the loop keeps
    the dropped counter of a protocol equal to the largest total sampled
    so far, which is also the stored total. *)
Theorem counter_is_largest_total_so_far ticks lastDropped6 :
  all_readable ticks ->
  Forall (fun t => 0 <= t <= 2 ^ 53) (udp_totals ticks) ->
  exists st',
    watchUDPBuffers 0 lastDropped6 ticks = Ret st'
    /\ counter (sink st') "udp" = foldl Z.max 0 (udp_totals ticks)
    /\ lastDropped st' = foldl Z.max 0 (udp_totals ticks).
Proof.
  intros Hread Hbound. unfold watchUDPBuffers.
  destruct (iterations_ret ticks
              {| lastDropped := 0; lastDropped6 := lastDropped6;
                 sink := no_metrics; stdout := [] |} Hread)
    as (st' & Hrun & Hl & _ & Hc & _).
  cbn [lastDropped sink] in Hl, Hc.
  assert (count 0) as H0 by (split; discriminate).
  assert (Forall count (udp_totals ticks)) as Hcounts.
  { eapply Forall_impl; [exact Hbound|]. intros t Ht. unfold count.
    rewrite max_int_value. cbv beta in Ht.
    change (2 ^ 53) with 9007199254740992 in Ht. lia. }
  destruct (running_max_counts (udp_totals ticks) 0 H0 Hcounts) as [Hfinal Hsum].
  pose proof (running_max_bound (2 ^ 53) (udp_totals ticks) 0 ltac:(discriminate) Hbound)
    as Hmax.
  pose proof (applied_deltas_nonneg (udp_totals ticks) 0) as Hnn.
  pose proof (sumZ_nonneg _ Hnn) as Hsumnn.
  exists st'. split; [exact Hrun|]. split; [|rewrite Hl; exact Hfinal].
  rewrite counter_shown, Hc, child_no_metrics.
  destruct (add_deltas_no_wrap (applied_deltas 0 (udp_totals ticks))
              {| valBits := 0; valInt := 0 |}) as [Hv Hb].
  - apply applied_deltas_range.
  - reflexivity.
  - rewrite map_of_int_exact by (assumption || lia). cbn [valInt].
    change (2 ^ 53) with 9007199254740992 in *.
    change (2 ^ 64) with 18446744073709551616. lia.
  - unfold shown. rewrite Hv, Hb. cbn [valInt valBits].
    rewrite map_of_int_exact by (assumption || lia).
    rewrite Hsum, Z.sub_0_r, !Z.add_0_l.
    rewrite (of_int_exact (foldl Z.max 0 (udp_totals ticks)));
      [apply of_int_exact|];
      change (2 ^ 53) with 9007199254740992 in *; lia.
Qed.

Lemma counter_is_largest_total_so_far_witness :
  all_readable [(one_row_file "100", None); (one_row_file "40", None);
                (one_row_file "130", None); (one_row_file "20", None)]
  /\ Forall (fun t => 0 <= t <= 2 ^ 53)
       (udp_totals [(one_row_file "100", None); (one_row_file "40", None);
                    (one_row_file "130", None); (one_row_file "20", None)])
  /\ exists st',
       watchUDPBuffers 0 0 [(one_row_file "100", None); (one_row_file "40", None);
                            (one_row_file "130", None); (one_row_file "20", None)]
       = Ret st'
       /\ counter (sink st') "udp" = 130
       /\ lastDropped st' = 130.
Proof.
  assert (all_readable [(one_row_file "100", None); (one_row_file "40", None);
                        (one_row_file "130", None); (one_row_file "20", None)]) as Hread.
  { repeat constructor; vm_compute; discriminate. }
  assert (Forall (fun t => 0 <= t <= 2 ^ 53)
            (udp_totals [(one_row_file "100", None); (one_row_file "40", None);
                         (one_row_file "130", None); (one_row_file "20", None)]))
    as Hbound.
  { repeat constructor; vm_compute; discriminate. }
  split; [exact Hread|]. split; [exact Hbound|].
  exact (counter_is_largest_total_so_far _ 0 Hread Hbound).
Defined.

Lemma iterations_app before : forall after st,
  iterations (before ++ after) st
  = match iterations before st with
    | Ret st1 => iterations after st1
    | Panic => Panic
    end.
Proof.
  induction before as [|[udp udp6] before IH]; intros after st; [reflexivity|].
  cbn [app iterations]. destruct (iteration udp udp6 st); [apply IH | reflexivity].
Qed.

(** After any run of the loop the queued gauge of each protocol holds
    [float64] of the queued total of the last iteration only, which is
    that total itself when it lies between -2^53 and 2^53: every
    iteration overwrites the gauge, whatever it held. *)
Theorem gauge_holds_last_sample ticks udp udp6 st :
  all_readable (ticks ++ [(udp, udp6)]) ->
  exists st',
    iterations (ticks ++ [(udp, udp6)]) st = Ret st'
    /\ gauge (sink st') "udp" = Some (Float64.of_int (queued_total udp))
    /\ gauge (sink st') "udp6" = Some (Float64.of_int (queued_total udp6))
    /\ (- 2 ^ 53 <= queued_total udp <= 2 ^ 53 ->
        gauge (sink st') "udp" = Some (queued_total udp))
    /\ (- 2 ^ 53 <= queued_total udp6 <= 2 ^ 53 ->
        gauge (sink st') "udp6" = Some (queued_total udp6)).
Proof.
  intros Hread. apply Forall_app in Hread as [Hticks Hlast].
  inversion Hlast as [|? ? [Hudp Hudp6] _]; subst. cbn [fst snd] in *.
  destruct (proj2 (iterations_ret_iff ticks st) Hticks) as [st1 Hrun].
  destruct (iteration_ret udp udp6 st1 Hudp Hudp6)
    as (st' & Hit & _ & _ & _ & _ & _ & Hg & Hg6).
  exists st'. rewrite iterations_app, Hrun. cbn [iterations]. rewrite Hit.
  split; [reflexivity|]. split; [exact Hg|]. split; [exact Hg6|].
  split; intros Hexact; [rewrite Hg | rewrite Hg6]; rewrite of_int_exact by exact Hexact;
    reflexivity.
Qed.

Lemma gauge_holds_last_sample_witness :
  all_readable ([(Some [udp_header; row_rx1_drops2; row_rx1_drops2], None)]
                ++ [(Some [udp_header; row_rx1_drops2], Some [udp_header])])
  /\ exists st',
       iterations ([(Some [udp_header; row_rx1_drops2; row_rx1_drops2], None)]
                   ++ [(Some [udp_header; row_rx1_drops2], Some [udp_header])])
         {| lastDropped := 0; lastDropped6 := 0; sink := no_metrics; stdout := [] |}
       = Ret st'
       /\ gauge (sink st') "udp" = Some 1
       /\ gauge (sink st') "udp6" = Some 0.
Proof.
  assert (all_readable ([(Some [udp_header; row_rx1_drops2; row_rx1_drops2], None)]
                ++ [(Some [udp_header; row_rx1_drops2], Some [udp_header])])) as Hread.
  { repeat constructor; vm_compute; discriminate. }
  split; [exact Hread|].
  destruct (gauge_holds_last_sample _ _ _
              {| lastDropped := 0; lastDropped6 := 0; sink := no_metrics; stdout := [] |}
              Hread)
    as (st' & Hrun & Hg & Hg6 & _).
  exists st'. split; [exact Hrun|]. split; [exact Hg | exact Hg6].
Defined.

(** A sample of 0, as a file that cannot be opened or a table with an
    unparsable row gives, met while the stored total is positive, is
    taken for a counter that went backwards: the notice is printed after
    what the parser printed, the gauge is set to 0, and the dropped
    counter and the stored total stay as they are. *)
Theorem zero_sample_counts_as_reset label f lastDropped m out :
  snd (parseProcfsNetFile f) = Ret (0, 0) ->
  0 < lastDropped <= GoInt.max_int ->
  exists m',
    watch_protocol label f lastDropped m out
    = Ret (lastDropped, m', (out ++ fst (parseProcfsNetFile f) ++ [WentNegative])%list)
    /\ gauge m' label = Some 0
    /\ counter m' label = counter m label.
Proof.
  intros Hzero Hlast.
  destruct (parseProcfsNetFile f) as [printed r] eqn:Hparse. cbn [fst snd] in *. subst r.
  destruct (watch_protocol_ret label f lastDropped m out printed 0 0 Hparse)
    as (m' & Hret & Hgauge & Hchild & _).
  rewrite diff_dropped_counts in Hret, Hchild
      by (unfold count; rewrite ?max_int_value in *; lia).
  destruct (Z.ltb_spec 0 lastDropped); [|lia]. cbn [fst snd] in Hret, Hchild.
  exists m'. split; [exact Hret|]. split; [exact Hgauge|].
  rewrite !counter_shown, Hchild. change (Float64.of_int 0) with 0.
  rewrite add_child_zero. reflexivity.
Qed.

Lemma zero_sample_counts_as_reset_witness :
  snd (parseProcfsNetFile (Some [udp_header; row_rx1_drops2; row_rx_not_hex])) = Ret (0, 0)
  /\ 0 < 7 <= GoInt.max_int
  /\ exists m',
       watch_protocol "udp" (Some [udp_header; row_rx1_drops2; row_rx_not_hex]) 7
         no_metrics []
       = Ret (7, m', [UnableQueued Strconv.ErrSyntax; WentNegative])
       /\ gauge m' "udp" = Some 0
       /\ counter m' "udp" = 0.
Proof.
  assert (snd (parseProcfsNetFile (Some [udp_header; row_rx1_drops2; row_rx_not_hex]))
          = Ret (0, 0)) as Hzero by reflexivity.
  assert (0 < 7 <= GoInt.max_int) as Hlast by (split; [reflexivity | discriminate]).
  split; [exact Hzero|]. split; [exact Hlast|].
  exact (zero_sample_counts_as_reset "udp" _ 7 no_metrics [] Hzero Hlast).
Defined.

(** ** [strings]: paths and records put together from parts *)

Lemma append_EmptyString b : "" +:+ b = b.
Proof. reflexivity. Qed.

Lemma append_String x a b : String x a +:+ b = String x (a +:+ b).
Proof. reflexivity. Qed.

Lemma Count_nonneg s c : 0 <= Strings.Count s c.
Proof.
  induction s as [|c' s IH]; cbn [Strings.Count]; [lia|].
  destruct (Ascii.eqb c' c); lia.
Qed.

Lemma Count_append a b c :
  Strings.Count (a +:+ b) c = Strings.Count a c + Strings.Count b c.
Proof.
  induction a as [|x a IH]; rewrite ?append_String, ?append_EmptyString; cbn [Strings.Count]; [lia|].
  rewrite IH. lia.
Qed.

Lemma Contains_append_r a s substr :
  Strings.Contains s substr = true -> Strings.Contains (a +:+ s) substr = true.
Proof.
  intros Hs. induction a as [|x a IH]; [exact Hs|].
  rewrite append_String; cbn [Strings.Contains]. rewrite IH. apply orb_true_r.
Qed.

Lemma len_String c s : Strings.len (String c s) = Strings.len s + 1.
Proof. unfold Strings.len. cbn [String.length]. lia. Qed.

Lemma len_nonneg s : 0 <= Strings.len s.
Proof. unfold Strings.len. lia. Qed.

Lemma LastIndex_append a b c :
  0 <= Strings.LastIndex b c ->
  Strings.LastIndex (a +:+ b) c = Strings.len a + Strings.LastIndex b c.
Proof.
  intros Hb. induction a as [|x a IH]; [rewrite append_EmptyString; unfold Strings.len; cbn; lia|].
  rewrite append_String; cbn [Strings.LastIndex]. rewrite IH, len_String.
  pose proof (len_nonneg a).
  destruct (Z.leb_spec 0 (Strings.len a + Strings.LastIndex b c)); lia.
Qed.

Lemma IndexByte_append a c rest :
  Strings.Count a c = 0 ->
  Strings.IndexByte (a +:+ String c rest) c = Strings.len a.
Proof.
  induction a as [|x a IH];
    rewrite ?append_String, ?append_EmptyString; cbn [Strings.IndexByte Strings.Count].
  - intros _. rewrite Ascii.eqb_refl. reflexivity.
  - pose proof (Count_nonneg a c). pose proof (len_nonneg a).
    destruct (Ascii.eqb x c); [lia|]. intros Hcount.
    rewrite IH, len_String by lia.
    destruct (Z.ltb_spec (Strings.len a) 0); lia.
Qed.

Lemma substring_append a b :
  String.substring 0 (String.length a) (a +:+ b) = a.
Proof.
  induction a as [|x a IH];
    rewrite ?append_String, ?append_EmptyString; cbn [String.length String.substring].
  - destruct b; reflexivity.
  - rewrite IH. reflexivity.
Qed.

Lemma len_append a b : Strings.len (a +:+ b) = Strings.len a + Strings.len b.
Proof.
  induction a as [|x a IH]; rewrite ?append_String, ?append_EmptyString.
  - unfold Strings.len. cbn [String.length]. lia.
  - rewrite !len_String, IH. lia.
Qed.

Lemma substring_middle (before a b : string) :
  String.substring (String.length before) (String.length a) (before +:+ a +:+ b) = a.
Proof.
  induction before as [|x before IH];
    rewrite ?append_String, ?append_EmptyString; cbn [String.length String.substring].
  - apply substring_append.
  - exact IH.
Qed.

Lemma slice_middle (before a b : string) :
  Strings.slice (before +:+ a +:+ b) (Strings.len before) (Strings.len before + Strings.len a)
  = Ret a.
Proof.
  unfold Strings.slice.
  pose proof (len_nonneg before). pose proof (len_nonneg a). pose proof (len_nonneg b).
  assert (Strings.len (before +:+ a +:+ b)
          = Strings.len before + Strings.len a + Strings.len b) as Hlen.
  { rewrite !len_append. lia. }
  rewrite Hlen.
  destruct (Z.leb_spec 0 (Strings.len before)); [|lia].
  destruct (Z.leb_spec (Strings.len before) (Strings.len before + Strings.len a)); [|lia].
  destruct (Z.leb_spec (Strings.len before + Strings.len a)
              (Strings.len before + Strings.len a + Strings.len b)); [|lia].
  cbn [andb]. f_equal.
  replace (Strings.len before + Strings.len a - Strings.len before) with (Strings.len a) by lia.
  unfold Strings.len. rewrite !Nat2Z.id. apply substring_middle.
Qed.

Lemma prefix_append a b : String.prefix a (a +:+ b) = true.
Proof.
  induction a as [|x a IH]; [rewrite append_EmptyString; destruct b; reflexivity|].
  rewrite append_String. cbn [String.prefix].
  destruct (ascii_dec x x) as [_|Hne]; [exact IH | now elim Hne].
Qed.

Lemma Contains_prefix s substr :
  String.prefix substr s = true -> Strings.Contains s substr = true.
Proof. intros H. destruct s; cbn [Strings.Contains]; rewrite H; reflexivity. Qed.

Lemma IndexByte_String_other c s x :
  Ascii.eqb c x = false -> 0 <= Strings.IndexByte s x ->
  Strings.IndexByte (String c s) x = Strings.IndexByte s x + 1.
Proof.
  intros Hc Hs. cbn [Strings.IndexByte]. rewrite Hc.
  destruct (Z.ltb_spec (Strings.IndexByte s x) 0); [lia | reflexivity].
Qed.

(** The path of a [status] file one directory below [/proc]: the walk
    function takes it for one and cuts the name of the directory out. *)
Lemma status_path dir :
  Strings.Count dir "/" = 0 ->
  Strings.Contains ("/proc/" +:+ dir +:+ "/status") "/status" = true
  /\ Strings.Contains ("/proc/" +:+ dir +:+ "/status") "/proc/" = true
  /\ Strings.Count ("/proc/" +:+ dir +:+ "/status") "/" = 3
  /\ Strings.slice ("/proc/" +:+ dir +:+ "/status") 6
       (Strings.LastIndex ("/proc/" +:+ dir +:+ "/status") "/")
     = Ret dir.
Proof.
  intros Hdir. split; [|split; [|split]].
  - do 2 apply Contains_append_r. reflexivity.
  - apply Contains_prefix, prefix_append.
  - rewrite !Count_append, Hdir. reflexivity.
  - pose proof (len_nonneg dir).
    assert (Strings.LastIndex (dir +:+ "/status") "/" = Strings.len dir) as Hlast.
    { rewrite LastIndex_append; change (Strings.LastIndex "/status" "/") with 0; lia. }
    rewrite LastIndex_append by lia. rewrite Hlast.
    exact (slice_middle "/proc/" dir "/status").
Qed.

(** The record of a [status] file: the name is what stands between the
    first six bytes and the first line end. *)
Lemma status_record name rest :
  Strings.Count name newline = 0 ->
  Strings.slice ("Name:" +:+ String tab (name +:+ String newline rest)) 6
    (Strings.IndexByte ("Name:" +:+ String tab (name +:+ String newline rest)) newline)
  = Ret name.
Proof.
  intros Hname. pose proof (len_nonneg name).
  assert (Strings.IndexByte ("Name:" +:+ String tab (name +:+ String newline rest)) newline
          = 6 + Strings.len name) as Hindex.
  { change ("Name:" +:+ String tab (name +:+ String newline rest))
      with ((String "N" (String "a" (String "m" (String "e" (String ":"
               (String tab ""))))) +:+ name) +:+ String newline rest).
    rewrite IndexByte_append.
    - rewrite len_append. reflexivity.
    - rewrite Count_append, Hname. reflexivity. }
  rewrite Hindex.
  exact (slice_middle (String "N" (String "a" (String "m" (String "e" (String ":"
                         (String tab ""))))))
           name (String newline rest)).
Qed.

Lemma walk_status_file target dir name rest found :
  Strings.Count dir "/" = 0 ->
  Strings.Count name newline = 0 ->
  walkProcFSStatus target (status_file dir name rest) found
  = match Strconv.Atoi dir with
    | (pid, None) =>
        Ret (if String.eqb name target then Strconv.Itoa pid else found, None)
    | (_, Some err) => Ret (found, Some (AtoiError err))
    end.
Proof.
  intros Hdir Hname.
  destruct (status_path dir Hdir) as (Hstatus & Hproc & Hcount & Hslice).
  unfold walkProcFSStatus, status_file. cbn [walk_err path read_file].
  rewrite Hstatus, Hproc, Hcount, Hslice. cbn [andb Z.eqb Pos.eqb].
  destruct (Strconv.Atoi dir) as [pid [err|]]; [reflexivity|].
  rewrite (status_record name rest Hname).
  destruct (String.eqb name target); reflexivity.
Qed.

(** ** [walkProcFSStatus] and [findPIDByName]: more on the search *)

(** The walk function on the [status] file of a directory of [/proc]
    whose first line is [Name:], a tab and the name: when the name of
    the directory is not a number the [Atoi] error is returned and the
    file is not looked at; otherwise [targetPID] becomes the number,
    written by [Itoa], when the name is exactly the wanted one, and is
    left as it was when it is not. *)
Theorem walk_function_on_status_file target dir name rest found :
  Strings.Count dir "/" = 0 ->
  Strings.Count name newline = 0 ->
  walkProcFSStatus target (status_file dir name rest) found
  = match Strconv.Atoi dir with
    | (pid, None) =>
        Ret (if String.eqb name target then Strconv.Itoa pid else found, None)
    | (_, Some err) => Ret (found, Some (AtoiError err))
    end.
Proof. exact (walk_status_file target dir name rest found). Qed.

Lemma walk_function_on_status_file_witness :
  Strings.Count "0042" "/" = 0
  /\ Strings.Count "statsd" newline = 0
  /\ walkProcFSStatus "statsd" (status_file "0042" "statsd" "State:  S (sleeping)") "7"
     = Ret ("42", None)
  /\ walkProcFSStatus "stats" (status_file "0042" "statsd" "State:  S (sleeping)") "7"
     = Ret ("7", None).
Proof.
  assert (Strings.Count "0042" "/" = 0) as Hdir by reflexivity.
  assert (Strings.Count "statsd" newline = 0) as Hname by reflexivity.
  split; [exact Hdir|]. split; [exact Hname|]. split.
  - exact (walk_function_on_status_file "statsd" "0042" "statsd" _ "7" Hdir Hname).
  - exact (walk_function_on_status_file "stats" "0042" "statsd" _ "7" Hdir Hname).
Defined.

Lemma Count_string_of_uint d : Strings.Count (NilEmpty.string_of_uint d) "/" = 0.
Proof.
  induction d as [|d IH|d IH|d IH|d IH|d IH|d IH|d IH|d IH|d IH|d IH];
    cbn [NilEmpty.string_of_uint Strings.Count]; rewrite ?IH; reflexivity.
Qed.

Lemma Count_Itoa i : Strings.Count (Strconv.Itoa i) "/" = 0.
Proof.
  destruct i as [|p|p]; [reflexivity|..];
    unfold Strconv.Itoa, Z.to_int, NilZero.string_of_int, Pos.to_int;
    rewrite NilZero_string_of_uint_to_uint; cbn [Strings.Count];
    rewrite Count_string_of_uint; reflexivity.
Qed.

Lemma Itoa_nonempty i : String.eqb (Strconv.Itoa i) "" = false.
Proof.
  destruct i as [|p|p]; [reflexivity|..];
    unfold Strconv.Itoa, Z.to_int, NilZero.string_of_int, Pos.to_int;
    rewrite NilZero_string_of_uint_to_uint; [|reflexivity].
  destruct (string_of_uint_nonempty p) as (c & s & -> & _). reflexivity.
Qed.

Lemma Walk_processes target procs : forall found,
  Forall (fun p => GoInt.in_range (fst p) /\ Strings.Count (snd p) newline = 0) procs ->
  Walk target (process_entries procs) found
  = Ret (match last_match target procs with
         | Some pid => Strconv.Itoa pid
         | None => found
         end, None).
Proof.
  induction procs as [|[pid name] rest IH]; intros found Hprocs; [reflexivity|].
  inversion Hprocs as [|? ? [Hpid Hname] Hrest]; subst. cbn [fst snd] in *.
  cbn [process_entries map Walk fst snd].
  rewrite walk_status_file by (apply Count_Itoa || exact Hname).
  rewrite Atoi_Itoa by exact Hpid.
  fold (process_entries rest). rewrite IH by exact Hrest.
  cbn [last_match fst snd].
  destruct (last_match target rest); [reflexivity|].
  destruct (String.eqb name target); reflexivity.
Qed.

(** The search over the [status] files of a list of processes, each
    with a number that is an [int] and a name without a line end: the
    result is the number of the LAST process of the walk with exactly
    the wanted name, written in decimal, and the fatal exit for a
    process that is not found when no process has that name. *)
Theorem locate_processes target procs :
  Forall (fun p => GoInt.in_range (fst p) /\ Strings.Count (snd p) newline = 0) procs ->
  locate target (process_entries procs)
  = match last_match target procs with
    | Some pid => GoesOn (Strconv.Itoa pid)
    | None => LogFatal FatalNotFound
    end.
Proof.
  intros Hprocs. unfold locate, findPIDByName.
  rewrite Walk_processes by exact Hprocs.
  destruct (last_match target procs) as [pid|]; [|reflexivity].
  rewrite Itoa_nonempty. reflexivity.
Qed.

Lemma locate_processes_witness :
  Forall (fun p => GoInt.in_range (fst p) /\ Strings.Count (snd p) newline = 0)
    [(1, "systemd"); (812, "statsd"); (900, "bash"); (4242, "statsd"); (5000, "sshd")]
  /\ locate "statsd"
       (process_entries
          [(1, "systemd"); (812, "statsd"); (900, "bash"); (4242, "statsd"); (5000, "sshd")])
     = GoesOn "4242"
  /\ locate "cron"
       (process_entries
          [(1, "systemd"); (812, "statsd"); (900, "bash"); (4242, "statsd"); (5000, "sshd")])
     = LogFatal FatalNotFound.
Proof.
  assert (Forall (fun p => GoInt.in_range (fst p) /\ Strings.Count (snd p) newline = 0)
    [(1, "systemd"); (812, "statsd"); (900, "bash"); (4242, "statsd"); (5000, "sshd")])
    as Hprocs.
  { repeat constructor; discriminate. }
  split; [exact Hprocs|]. split.
  - exact (locate_processes "statsd" _ Hprocs).
  - exact (locate_processes "cron" _ Hprocs).
Defined.

Lemma walk_not_examined target e found :
  examined e = false -> walkProcFSStatus target e found = Ret (found, None).
Proof.
  unfold examined, walkProcFSStatus.
  destruct (walk_err e); [reflexivity|]. cbn [negb andb]. intros ->.
  rewrite andb_false_r. reflexivity.
Qed.

Lemma Walk_filter_examined target entries : forall found,
  Walk target (List.filter examined entries) found = Walk target entries found.
Proof.
  induction entries as [|e entries IH]; intros found; [reflexivity|].
  cbn [List.filter Walk]. destruct (examined e) eqn:He.
  - cbn [Walk].
    destruct (walkProcFSStatus target e found) as [[found' [err|]]|];
      [reflexivity | apply IH | reflexivity].
  - rewrite walk_not_examined by exact He. apply IH.
Qed.

(** Entries for which the walk hands over an error, and entries whose
    path does not have exactly three slashes ([/proc] and the
    directories of the processes, the files of the threads below
    [/proc/<pid>/task]), have no part in the search: with or without
    them the outcome is the same. *)
Theorem locate_ignores_unexamined_entries target entries :
  locate target entries = locate target (List.filter examined entries).
Proof.
  unfold locate, findPIDByName. rewrite Walk_filter_examined. reflexivity.
Qed.

Lemma walk_step_pid target e found found' err :
  walkProcFSStatus target e found = Ret (found', err) ->
  found' = found \/ exists pid, GoInt.in_range pid /\ found' = Strconv.Itoa pid.
Proof.
  unfold walkProcFSStatus.
  destruct (walk_err e); [intros [= <- <-]; left; reflexivity|].
  destruct (Strings.Contains (path e) "/status" && Strings.Contains (path e) "/proc/"
            && (Strings.Count (path e) "/" =? 3));
    [|intros [= <- <-]; left; reflexivity].
  destruct (Strings.slice (path e) 6 (Strings.LastIndex (path e) "/")) as [digits|];
    [|discriminate].
  destruct (Strconv.Atoi digits) as [pid [aerr|]] eqn:Hpid;
    [intros [= <- <-]; left; reflexivity|].
  destruct (read_file e) as [f|]; [|intros [= <- <-]; left; reflexivity].
  destruct (Strings.slice f 6 (Strings.IndexByte f newline)) as [name|]; [|discriminate].
  destruct (String.eqb name target); intros [= <- <-]; [|left; reflexivity].
  right. exists pid. split; [|reflexivity].
  apply (ParseInt_in_range digits 10 GoInt.bits pid) in Hpid; [exact Hpid | lia | discriminate].
Qed.

Lemma Walk_pid target entries : forall found found' err,
  Walk target entries found = Ret (found', err) ->
  found' = found \/ exists pid, GoInt.in_range pid /\ found' = Strconv.Itoa pid.
Proof.
  induction entries as [|e entries IH]; intros found found' err; cbn [Walk].
  - intros [= <- <-]. left. reflexivity.
  - destruct (walkProcFSStatus target e found) as [[found1 [err1|]]|] eqn:Hstep;
      [| |discriminate].
    + intros [= <- <-]. eapply walk_step_pid; eassumption.
    + intros Hrest. apply IH in Hrest. apply walk_step_pid in Hstep.
      destruct Hrest as [->|Hrest]; [exact Hstep | right; exact Hrest].
Qed.

(** Whatever [/proc] holds, when the search lets the program go on, the
    identifier it hands to the loop is the decimal writing by [Itoa] of
    an [int] read from a path, so it is not empty and a second reading
    by [Atoi] gives that number back. *)
Theorem locate_gives_a_decimal_number target entries targetPID :
  locate target entries = GoesOn targetPID ->
  exists pid,
    GoInt.in_range pid
    /\ targetPID = Strconv.Itoa pid
    /\ Strconv.Atoi targetPID = (pid, None).
Proof.
  unfold locate, findPIDByName.
  destruct (Walk target entries "") as [[found err]|] eqn:Hwalk; [|discriminate].
  assert (forall out : outcome string,
             (if String.eqb found "" then LogFatal FatalNotFound else GoesOn found) = out ->
             out = GoesOn targetPID ->
             exists pid, GoInt.in_range pid /\ targetPID = Strconv.Itoa pid
                         /\ Strconv.Atoi targetPID = (pid, None)) as Hcheck.
  { intros out <-. destruct (String.eqb_spec found ""); [discriminate|].
    intros [= <-]. apply Walk_pid in Hwalk as [->|(pid & Hpid & ->)]; [congruence|].
    exists pid. split; [exact Hpid|]. split; [reflexivity | apply Atoi_Itoa; exact Hpid]. }
  destruct err as [[| |]|]; try discriminate; intros Hout; eapply Hcheck; eauto.
Qed.

Lemma locate_gives_a_decimal_number_witness :
  locate "statsd" [plain_entry "/proc"; status_entry "0042" "statsd"] = GoesOn "42"
  /\ exists pid,
       GoInt.in_range pid /\ "42" = Strconv.Itoa pid /\ Strconv.Atoi "42" = (pid, None).
Proof.
  assert (locate "statsd" [plain_entry "/proc"; status_entry "0042" "statsd"] = GoesOn "42")
    as Hlocate by reflexivity.
  split; [exact Hlocate|].
  exact (locate_gives_a_decimal_number _ _ _ Hlocate).
Defined.

(** A directory of [/proc] whose name is not a number and that holds a
    [status] entry ends the program: the walk function returns the
    [Atoi] error without reading the file, the walk stops there, and
    [findPIDByName] exits through [log.Fatal], whatever was found before
    and whatever the walk would have met after. *)
Theorem locate_fatal_on_non_numeric_directory
    target before dir contents after found value err :
  Walk target before "" = Ret (found, None) ->
  Strings.Count dir "/" = 0 ->
  Strconv.Atoi dir = (value, Some err) ->
  locate target (before ++ status_read dir contents :: after)
  = LogFatal (FatalWalk (AtoiError err)).
Proof.
  intros Hbefore Hdir Hatoi.
  apply (locate_fatal_at_error target before _ after found found (AtoiError err));
    [exact Hbefore | | discriminate].
  destruct (status_path dir Hdir) as (Hstatus & Hproc & Hcount & Hslice).
  unfold walkProcFSStatus, status_read. cbn [walk_err path read_file].
  rewrite Hstatus, Hproc, Hcount, Hslice, Hatoi. reflexivity.
Qed.

Lemma locate_fatal_on_non_numeric_directory_witness :
  Walk "statsd" [plain_entry "/proc"; status_entry "42" "statsd"] "" = Ret ("42", None)
  /\ Strings.Count "acpi" "/" = 0
  /\ Strconv.Atoi "acpi" = (0, Some Strconv.ErrSyntax)
  /\ locate "statsd"
       ([plain_entry "/proc"; status_entry "42" "statsd"]
        ++ status_read "acpi" (Some "enabled") :: [status_entry "50" "statsd"])
     = LogFatal (FatalWalk (AtoiError Strconv.ErrSyntax)).
Proof.
  assert (Walk "statsd" [plain_entry "/proc"; status_entry "42" "statsd"] ""
          = Ret ("42", None)) as Hbefore by reflexivity.
  assert (Strings.Count "acpi" "/" = 0) as Hdir by reflexivity.
  assert (Strconv.Atoi "acpi" = (0, Some Strconv.ErrSyntax)) as Hatoi by reflexivity.
  split; [exact Hbefore|]. split; [exact Hdir|]. split; [exact Hatoi|].
  exact (locate_fatal_on_non_numeric_directory "statsd" _ "acpi" (Some "enabled")
           [status_entry "50" "statsd"] "42" 0 Strconv.ErrSyntax Hbefore Hdir Hatoi).
Defined.

(** A [status] record whose first line end comes before its seventh byte,
    or that has no line end at all, makes the program panic on the slice
    of the name, whatever was found before and whatever its directory
    number is. *)
Theorem locate_panics_on_short_record target before dir record after found pid :
  Walk target before "" = Ret (found, None) ->
  Strings.Count dir "/" = 0 ->
  Strconv.Atoi dir = (pid, None) ->
  Strings.IndexByte record newline < 6 ->
  locate target (before ++ status_read dir (Some record) :: after) = Panics.
Proof.
  intros Hbefore Hdir Hatoi Hshort.
  unfold locate, findPIDByName. rewrite Walk_app, Hbefore. cbn [Walk].
  destruct (status_path dir Hdir) as (Hstatus & Hproc & Hcount & Hslice).
  unfold walkProcFSStatus, status_read. cbn [walk_err path read_file].
  rewrite Hstatus, Hproc, Hcount, Hslice, Hatoi. cbn [andb Z.eqb Pos.eqb].
  unfold Strings.slice.
  destruct (Z.leb_spec 6 (Strings.IndexByte record newline)); [lia|].
  reflexivity.
Qed.

Lemma locate_panics_on_short_record_witness :
  Walk "statsd" [plain_entry "/proc"; status_entry "42" "statsd"] "" = Ret ("42", None)
  /\ Strings.Count "50" "/" = 0
  /\ Strconv.Atoi "50" = (50, None)
  /\ Strings.IndexByte "" newline < 6
  /\ locate "statsd"
       ([plain_entry "/proc"; status_entry "42" "statsd"]
        ++ status_read "50" (Some "") :: [])
     = Panics.
Proof.
  assert (Walk "statsd" [plain_entry "/proc"; status_entry "42" "statsd"] ""
          = Ret ("42", None)) as Hbefore by reflexivity.
  assert (Strings.Count "50" "/" = 0) as Hdir by reflexivity.
  assert (Strconv.Atoi "50" = (50, None)) as Hatoi by reflexivity.
  assert (Strings.IndexByte "" newline < 6) as Hshort by reflexivity.
  split; [exact Hbefore|]. split; [exact Hdir|]. split; [exact Hatoi|].
  split; [exact Hshort|].
  exact (locate_panics_on_short_record "statsd" _ "50" "" [] "42" 50
           Hbefore Hdir Hatoi Hshort).
Defined.

(** ** [simple-server.go]: the reply to a datagram *)

Lemma serve_spec buf :
  match buf !! 2%nat with
  | Some b => serve buf = Ret (<[2%nat := Z.lor b 128]> buf)
  | None => serve buf = Panic
  end.
Proof. unfold serve, index. destruct (buf !! 2%nat); reflexivity. Qed.

Lemma lor_128_bits b k :
  0 <= k ->
  Z.testbit (Z.lor b 128) k = if k =? 7 then true else Z.testbit b k.
Proof.
  intros Hk. rewrite Z.lor_spec. change 128 with (2 ^ 7).
  rewrite Z.pow2_bits_eqb by lia. rewrite (Z.eqb_sym 7 k).
  destruct (k =? 7); [apply orb_true_r | apply orb_false_r].
Qed.

Lemma lor_128_byte b : is_byte b -> is_byte (Z.lor b 128).
Proof.
  unfold is_byte. intros Hb. split; [apply Z.lor_nonneg; lia|].
  change 256 with (2 ^ 8). apply Z.log2_lt_pow2.
  - assert (0 <= Z.lor b 128) by (apply Z.lor_nonneg; lia).
    assert (Z.lor b 128 <> 0); [|lia].
    intros H0. apply Z.lor_eq_0_iff in H0. lia.
  - rewrite Z.log2_lor by lia. change (Z.log2 128) with 7.
    destruct (Z.eq_dec b 0) as [->|Hne]; [reflexivity|].
    assert (Z.log2 b < 8) by (apply Z.log2_lt_pow2; change (2 ^ 8) with 256; lia).
    lia.
Qed.

(** [serve] panics exactly on the buffers of fewer than three bytes; the
    loop of [main] starts it on whatever was read, so a datagram of zero,
    one or two bytes ends the server. *)
Theorem serve_panics_iff_short datagram :
  serve_datagram datagram = Panic <-> (length datagram < 3)%nat.
Proof.
  unfold serve_datagram. pose proof (serve_spec (take 1024 datagram)) as Hspec.
  destruct (take 1024 datagram !! 2%nat) as [b|] eqn:Hlookup.
  - rewrite Hspec. apply lookup_lt_Some in Hlookup. rewrite length_take in Hlookup.
    split; [discriminate | lia].
  - apply lookup_ge_None in Hlookup. rewrite length_take in Hlookup.
    split; [lia | intros _; exact Hspec].
Qed.

Lemma serve_panics_iff_short_witness :
  (length [18; 52] < 3)%nat /\ serve_datagram [18; 52] = Panic.
Proof.
  assert (length [18; 52] < 3)%nat as Hshort by (cbn; lia).
  split; [exact Hshort | exact (proj2 (serve_panics_iff_short [18; 52]) Hshort)].
Defined.

(** The reply to a datagram of at least three bytes is its first 1024
    bytes with one change: in the byte of index 2 the bit of weight 0x80
    is set. The length, the other bytes and the other bits of that byte
    are those received, and every byte of the reply is a byte. *)
Theorem serve_sets_only_the_QR_bit datagram :
  (3 <= length datagram)%nat ->
  Forall is_byte datagram ->
  exists reply,
    serve_datagram datagram = Ret reply
    /\ length reply = Nat.min 1024 (length datagram)
    /\ Forall is_byte reply
    /\ (forall i, i <> 2%nat -> reply !! i = take 1024 datagram !! i)
    /\ exists b b',
         datagram !! 2%nat = Some b /\ reply !! 2%nat = Some b'
         /\ forall k, 0 <= k -> Z.testbit b' k = if k =? 7 then true else Z.testbit b k.
Proof.
  intros Hlen Hbytes. unfold serve_datagram.
  pose proof (serve_spec (take 1024 datagram)) as Hspec.
  destruct (take 1024 datagram !! 2%nat) as [b|] eqn:Hlookup;
    [|apply lookup_ge_None in Hlookup; rewrite length_take in Hlookup; lia].
  exists (<[2%nat := Z.lor b 128]> (take 1024 datagram)).
  assert (datagram !! 2%nat = Some b) as Hb.
  { rewrite lookup_take_lt in Hlookup by lia. exact Hlookup. }
  split; [exact Hspec|].
  split; [rewrite length_insert, length_take; reflexivity|].
  split.
  { apply Forall_insert; [apply Forall_take; exact Hbytes|].
    apply lor_128_byte. eapply Forall_lookup_1; eassumption. }
  split; [intros i Hi; apply list_lookup_insert_ne; congruence|].
  exists b, (Z.lor b 128). split; [exact Hb|].
  split; [apply list_lookup_insert_eq; apply lookup_lt_Some in Hlookup; exact Hlookup|].
  intros k Hk. apply lor_128_bits. exact Hk.
Qed.

Lemma serve_sets_only_the_QR_bit_witness :
  (3 <= length [18; 52; 1; 0; 0; 1])%nat
  /\ Forall is_byte [18; 52; 1; 0; 0; 1]
  /\ exists reply,
       serve_datagram [18; 52; 1; 0; 0; 1] = Ret reply
       /\ length reply = 6%nat
       /\ Forall is_byte reply.
Proof.
  assert (3 <= length [18; 52; 1; 0; 0; 1])%nat as Hlen by (cbn; lia).
  assert (Forall is_byte [18; 52; 1; 0; 0; 1]) as Hbytes
      by (repeat constructor; discriminate).
  split; [exact Hlen|]. split; [exact Hbytes|].
  destruct (serve_sets_only_the_QR_bit [18; 52; 1; 0; 0; 1] Hlen Hbytes)
    as (reply & Hret & Hlength & Hreply & _).
  exists reply. split; [exact Hret|]. split; [exact Hlength | exact Hreply].
Defined.

Lemma lor_128_twice b : Z.lor (Z.lor b 128) 128 = Z.lor b 128.
Proof. rewrite <- Z.lor_assoc. reflexivity. Qed.

(** A reply sent to the server again comes back as it is: the bit is
    already set, and nothing else is changed. *)
Theorem serve_reply_is_fixed datagram reply :
  serve_datagram datagram = Ret reply -> serve_datagram reply = Ret reply.
Proof.
  unfold serve_datagram. pose proof (serve_spec (take 1024 datagram)) as Hspec.
  destruct (take 1024 datagram !! 2%nat) as [b|] eqn:Hlookup;
    [|rewrite Hspec; discriminate].
  rewrite Hspec. intros [= <-].
  assert (length (<[2%nat := Z.lor b 128]> (take 1024 datagram)) <= 1024)%nat as Hlen.
  { rewrite length_insert, length_take. lia. }
  rewrite take_ge by exact Hlen.
  pose proof (serve_spec (<[2%nat := Z.lor b 128]> (take 1024 datagram))) as Hspec'.
  rewrite list_lookup_insert_eq in Hspec' by (apply lookup_lt_Some in Hlookup; exact Hlookup).
  rewrite Hspec', list_insert_insert_eq, lor_128_twice. reflexivity.
Qed.

Lemma serve_reply_is_fixed_witness :
  serve_datagram [18; 52; 1; 0; 0; 1] = Ret [18; 52; 129; 0; 0; 1]
  /\ serve_datagram [18; 52; 129; 0; 0; 1] = Ret [18; 52; 129; 0; 0; 1].
Proof.
  assert (serve_datagram [18; 52; 1; 0; 0; 1] = Ret [18; 52; 129; 0; 0; 1]) as Hret
      by reflexivity.
  split; [exact Hret | exact (serve_reply_is_fixed _ _ Hret)].
Defined.
